(** * TranscribeBot: the chapter-synthesis pipeline

    A shallow embedding of [backend/utils/parser.py],
    [backend/services/llm_chapter_generator.py] and the computations of
    the handlers of [backend/main.py], the properties the specification
    states about them, and further properties of the code.

    Python values are modelled as the interpreter has them: [int] as [Z],
    [str] as a list of code points, [float] as a binary64 primitive float,
    [None]-able fields as [option], and the values decoded from JSON as a
    tagged union.  Exceptions are explicit results, and [logging.error] is
    a write to an explicit log. *)

From Stdlib Require Import ZArith NArith List Lia Bool.
From Stdlib Require Import Strings.Ascii Strings.String Numbers.DecimalString.
From Stdlib Require Numbers.DecimalPos Numbers.DecimalN Numbers.DecimalFacts.
From Stdlib Require Import Sorting.Sorted.
From Stdlib Require Import Floats.PrimFloat.
Import ListNotations.
Abbreviation length := List.length.
Infix "++" := List.app.
Open Scope string_scope.
Open Scope list_scope.
Open Scope Z_scope.

Set Implicit Arguments.
Set Warnings "-inexact-float,-register-all".

(* ================================================================== *)
(** ** Python strings and integers *)
(* ================================================================== *)

Module Py.

(** A [str] is a sequence of Unicode code points. *)
Definition char := N.
Bind Scope N_scope with char.
Definition str := list char.

(** An ASCII literal of the source, as a [str]. *)
Definition lit (s : string) : str := map N_of_ascii (list_ascii_of_string s).

Definition str_eqb (a b : str) : bool :=
  (length a =? length b)%nat && forallb (fun p => N.eqb (fst p) (snd p)) (combine a b).

(** [str.isspace] on one character (CPython's [_PyUnicode_IsWhitespace]);
    [str.strip] and the regular expression class [\s] use the same set. *)
Definition isspace (c : char) : bool :=
  ((9 <=? c) && (c <=? 13) || (28 <=? c) && (c <=? 32)
   || (c =? 133) || (c =? 160) || (c =? 5760)
   || (8192 <=? c) && (c <=? 8202)
   || (c =? 8232) || (c =? 8233) || (c =? 8239) || (c =? 8287) || (c =? 12288))%N.

Fixpoint lstrip (s : str) : str :=
  match s with
  | c :: r => if isspace c then lstrip r else s
  | [] => []
  end.

Definition rstrip (s : str) : str := rev (lstrip (rev s)).

(** [s.strip()] *)
Definition strip (s : str) : str := rstrip (lstrip s).

(** [s.startswith(prefix)] *)
Fixpoint startswith (s prefix : str) : bool :=
  match prefix, s with
  | [], _ => true
  | p :: prefix', c :: s' => (c =? p)%N && startswith s' prefix'
  | _ :: _, [] => false
  end.

(** [sub in s] for two strings. *)
Fixpoint contains (s sub : str) : bool :=
  startswith s sub ||
  match s with
  | [] => false
  | _ :: s' => contains s' sub
  end.

(** The line boundaries of [str.splitlines]: LF, VT, FF, CR, FS, GS, RS,
    NEL, LS and PS; CR LF counts as one boundary. *)
Definition is_linebreak (c : char) : bool :=
  ((10 <=? c) && (c <=? 13) || (28 <=? c) && (c <=? 30)
   || (c =? 133) || (c =? 8232) || (c =? 8233))%N.

(** [splitlines_from cur s]: [cur] holds the current line, reversed. *)
Fixpoint splitlines_from (cur : str) (s : str) : list str :=
  match s with
  | [] => match cur with [] => [] | _ :: _ => [rev cur] end
  | c :: r =>
      if is_linebreak c then
        match c, r with
        | 13%N, 10%N :: r' => rev cur :: splitlines_from [] r'
        | _, _ => rev cur :: splitlines_from [] r
        end
      else splitlines_from (c :: cur) r
  end.

(** [s.splitlines()] *)
Definition splitlines (s : str) : list str := splitlines_from [] s.

(** [split_from cur sep s]: [s.split(sep)] for a one-character separator,
    [cur] holding the current field, reversed. *)
Fixpoint split_from (cur : str) (sep : char) (s : str) : list str :=
  match s with
  | [] => [rev cur]
  | c :: r => if (c =? sep)%N then rev cur :: split_from [] sep r
              else split_from (c :: cur) sep r
  end.

Definition split (s : str) (sep : char) : list str := split_from [] sep s.

(** [sep.join(parts)] *)
Fixpoint join (sep : str) (parts : list str) : str :=
  match parts with
  | [] => []
  | [p] => p
  | p :: ps => p ++ sep ++ join sep ps
  end.

(** Decimal digits of a natural number, most significant first. *)
Definition digits_of_N (n : N) : str :=
  lit (NilEmpty.string_of_uint (N.to_uint n)).

(** [str(z)] for an [int]. *)
Definition str_of_int (z : Z) : str :=
  if (z <? 0)%Z then lit "-" ++ digits_of_N (Z.abs_N z) else digits_of_N (Z.abs_N z).

(** [format(z, "02d")]: sign-aware zero padding to width two. *)
Definition format_02d (z : Z) : str :=
  let d := digits_of_N (Z.abs_N z) in
  if (z <? 0)%Z then lit "-" ++ d
  else if (length d <? 2)%nat then lit "0" ++ d else d.

(** Exception classes the code can meet. *)
Inductive exn :=
| KeyError | IndexError | TypeError | AttributeError | ValueError
| JSONDecodeError | HTTPStatusError | OtherError.

Inductive result (A : Type) :=
| Ok (a : A)
| Raise (e : exn).
Arguments Raise {A} e.

Definition rbind {A B} (r : result A) (k : A -> result B) : result B :=
  match r with
  | Ok a => k a
  | Raise e => Raise e
  end.

Fixpoint rmap {A B} (f : A -> result B) (l : list A) : result (list B) :=
  match l with
  | [] => Ok []
  | x :: l' => rbind (f x) (fun y => rbind (rmap f l') (fun ys => Ok (y :: ys)))
  end.

(** What the interpreter brings and the source does not fix: the Unicode
    database's decimal digits outside ASCII ([Py_UNICODE_TODECIMAL]) and
    the limit on the digits [int] converts ([sys.get_int_max_str_digits],
    [0] for no limit). *)
Record Runtime := {
  unicode_decimal : char -> option N;
  int_max_str_digits : N
}.

Section WithRuntime.
Variable rt : Runtime.

(** The decimal value of a character: [0]..[9] in ASCII, the database's
    entry elsewhere.  No white space character is a decimal digit. *)
Definition to_decimal (c : char) : option N :=
  if (c <? 128)%N then
    if ((48 <=? c) && (c <=? 57))%N then Some (c - 48)%N else None
  else if isspace c then None
  else match unicode_decimal rt c with
       | Some d => if (d <? 10)%N then Some d else None
       | None => None
       end.

(** [\d] of a Unicode pattern. *)
Definition isdecimal (c : char) : bool :=
  match to_decimal c with Some _ => true | None => false end.

(** [int(s)] first rewrites [s] to ASCII: ASCII characters stay, other
    white space becomes a blank, other decimal digits their ASCII digit,
    anything else an invalid character. *)
Definition int_ascii (c : char) : char :=
  if (c <? 128)%N then c
  else if isspace c then 32%N
  else match to_decimal c with
       | Some d => (48 + d)%N
       | None => 63%N
       end.

(** White space of the C parser: TAB..CR and the blank. *)
Definition c_isspace (c : char) : bool :=
  ((9 <=? c) && (c <=? 13) || (c =? 32))%N.

Fixpoint c_skip_space (s : str) : str :=
  match s with
  | c :: r => if c_isspace c then c_skip_space r else s
  | [] => []
  end.

Definition ascii_digit (c : char) : option Z :=
  if ((48 <=? c) && (c <=? 57))%N then Some (Z.of_N (c - 48)) else None.

(** [scan_digits prev acc n s]: reads digits and single underscores;
    [prev] tells whether the last character read was an underscore, [n]
    counts the digits.  Returns the value, the count and the rest, or
    [None] on a doubled or trailing underscore. *)
Fixpoint scan_digits (prev : bool) (acc : Z) (n : N) (s : str) : option (Z * N * str) :=
  match s with
  | [] => if prev then None else Some (acc, n, [])
  | c :: r =>
      if (c =? 95)%N then
        if prev then None else scan_digits true acc n r
      else match ascii_digit c with
           | Some d => scan_digits false (10 * acc + d)%Z (N.succ n) r
           | None => if prev then None else Some (acc, n, s)
           end
  end.

(** [int(s)] in base ten: optional white space, an optional sign, digits
    with single underscores between them, optional white space. *)
Definition int (s : str) : result Z :=
  let a := c_skip_space (map int_ascii s) in
  let '(sign, a) := match a with
                    | 43%N :: r => (1%Z, r)
                    | 45%N :: r => ((-1)%Z, r)
                    | _ => (1%Z, a)
                    end in
  match a with
  | 95%N :: _ => Raise ValueError
  | _ =>
      match scan_digits false 0%Z 0%N a with
      | None => Raise ValueError
      | Some (v, n, rest) =>
          if (n =? 0)%N then Raise ValueError
          else if ((640 <? n) && (0 <? int_max_str_digits rt) && (int_max_str_digits rt <? n))%N
          then Raise ValueError
          else match c_skip_space rest with
               | [] => Ok (sign * v)%Z
               | _ :: _ => Raise ValueError
               end
      end
  end.

End WithRuntime.

(** An interpreter whose database has the ASCII digits only and no limit
    on the digits of [int]. *)
Definition ascii_runtime : Runtime :=
  {| unicode_decimal := fun _ => None; int_max_str_digits := 0 |}.

End Py.

Import Py.

Declare Scope result_scope.
Notation "x <- r ;; k" := (rbind r (fun x => k))
  (at level 61, r at next level, right associativity) : result_scope.
Delimit Scope result_scope with result.

(** [sorted(l, key=...)]: a stable sort; [le a b] compares the keys.  An
    element goes in front of the first element of the sorted rest whose
    key is not smaller, so equal keys keep their input order. *)
Fixpoint insert_sorted {A} (le : A -> A -> bool) (x : A) (l : list A) : list A :=
  match l with
  | [] => [x]
  | y :: l' => if le x y then x :: l else y :: insert_sorted le x l'
  end.

Fixpoint sorted {A} (le : A -> A -> bool) (l : list A) : list A :=
  match l with
  | [] => []
  | x :: l' => insert_sorted le x (sorted le l')
  end.

(** [range(n)] *)
Definition range (n : Z) : list Z := map Z.of_nat (seq 0 (Z.to_nat n)).

(** [x or y] for an [Optional[int]] [x]: [None] and [0] are falsy. *)
Definition int_or (x : option Z) (y : Z) : Z :=
  match x with
  | Some v => if v =? 0 then y else v
  | None => y
  end.

(** [l[:k]] *)
Definition slice_to {A} (l : list A) (k : Z) : list A :=
  if k <? 0 then firstn (Z.to_nat (Z.max (Z.of_nat (length l) + k) 0)) l
  else firstn (Z.to_nat k) l.

(* ================================================================== *)
(** ** backend/utils/parser.py *)
(* ================================================================== *)

Module Parser.

Section WithRuntime.
Variable rt : Runtime.

Definition expect (c : char) (s : str) : option str :=
  match s with
  | x :: r => if (x =? c)%N then Some r else None
  | [] => None
  end.

(** The regular expression that [TRANSCRIPT_PATTERN] compiles, as text;
    [TRANSCRIPT_PATTERN_match] below is its matcher. *)
Definition TRANSCRIPT_PATTERN : string :=
  "^\[(\d{2}):(\d{2}):(\d{2})\s*-->\s*(\d{2}):(\d{2}):(\d{2})]\s*(.*)$".

(** A group of two decimal digits, and the rest. *)
Definition two_digits (s : str) : option (str * str) :=
  match s with
  | a :: b :: r => if isdecimal rt a && isdecimal rt b then Some ([a; b], r) else None
  | _ => None
  end.

(** The last group and the end anchor: the dot is any character but the
    newline, and the anchor holds at the end of the string or in front of
    a newline that ends it. *)
Fixpoint dot_star_end (s : str) : option str :=
  match s with
  | [] => Some []
  | c :: r =>
      if (c =? 10)%N then match r with [] => Some [] | _ :: _ => None end
      else option_map (cons c) (dot_star_end r)
  end.

Definition obind {A B} (o : option A) (k : A -> option B) : option B :=
  match o with Some a => k a | None => None end.

(** Three groups of two digits with colons between them. *)
Definition hms_groups (s : str) : option (str * str * str * str) :=
  obind (two_digits s) (fun '(h, s) =>
  obind (expect 58 s) (fun s =>
  obind (two_digits s) (fun '(m, s) =>
  obind (expect 58 s) (fun s =>
  obind (two_digits s) (fun '(sec, s) =>
  Some (h, m, sec, s)))))).

(** [TRANSCRIPT_PATTERN.match(line)]: the seven groups.  No white space
    character is a digit, a dash or a bracket, so each greedy run of white
    space takes all the white space there is. *)
Definition TRANSCRIPT_PATTERN_match (line : str)
  : option (str * str * str * str * str * str * str) :=
  obind (expect 91 line) (fun s =>
  obind (hms_groups s) (fun '(g1, g2, g3, s) =>
  obind (expect 45 (lstrip s)) (fun s =>
  obind (expect 45 s) (fun s =>
  obind (expect 62 s) (fun s =>
  obind (hms_groups (lstrip s)) (fun '(g4, g5, g6, s) =>
  obind (expect 93 s) (fun s =>
  obind (dot_star_end (lstrip s)) (fun g7 =>
  Some (g1, g2, g3, g4, g5, g6, g7))))))))).

Definition hms_to_seconds (hours minutes seconds : str) : result Z :=
  (h <- int rt hours ;;
   m <- int rt minutes ;;
   s <- int rt seconds ;;
   Ok (h * 3600 + m * 60 + s))%result.

(** The marker of the generated-at line: U+751F U+6210 U+65F6 U+95F4. *)
Definition generated_at : str := [29983; 25104; 26102; 38388]%N.

(** The body of the loop of [parse_transcript_txt] over the lines still to
    read; the result lists the tuples in the order they were appended. *)
Fixpoint parse_lines (raw_lines : list str) : result (list (Z * option Z * str)) :=
  match raw_lines with
  | [] => Ok []
  | raw_line :: rest =>
      let line := strip raw_line in
      match line with
      | [] => parse_lines rest
      | _ :: _ =>
          if startswith line (lit "#") || startswith line generated_at
          then parse_lines rest
          else
            match TRANSCRIPT_PATTERN_match line with
            | None => parse_lines rest
            | Some (g1, g2, g3, g4, g5, g6, g7) =>
                (start_sec <- hms_to_seconds g1 g2 g3 ;;
                 end_sec <- hms_to_seconds g4 g5 g6 ;;
                 let text := strip g7 in
                 lines <- parse_lines rest ;;
                 Ok ((start_sec, Some end_sec, text) :: lines))%result
            end
      end
  end.

Definition parse_transcript_txt (content : str) : result (list (Z * option Z * str)) :=
  parse_lines (splitlines content).

End WithRuntime.

End Parser.

(* ================================================================== *)
(** ** backend/models.py and the values decoded from JSON *)
(* ================================================================== *)

(** The fields of a transcript record that the pipeline reads. *)
Module TranscriptLine.
Record t := mk {
  start_sec : Z;
  end_sec : option Z;
  text : str
}.
End TranscriptLine.

(** A value as [json.loads] and [resp.json()] build it.  A [dict] is kept
    as its items; a key's first item is its binding. *)
Inductive pyval :=
| PNone
| PBool (b : bool)
| PInt (z : Z)
| PFloat (f : float)
| PStr (s : str)
| PList (l : list pyval)
| PDict (d : list (str * pyval)).

(** [bool(v)] *)
Definition truthy (v : pyval) : bool :=
  match v with
  | PNone => false
  | PBool b => b
  | PInt z => negb (z =? 0)
  | PFloat f => negb (PrimFloat.eqb f 0%float)
  | PStr s => match s with [] => false | _ :: _ => true end
  | PList l => match l with [] => false | _ :: _ => true end
  | PDict d => match d with [] => false | _ :: _ => true end
  end.

Fixpoint lookup (key : str) (d : list (str * pyval)) : option pyval :=
  match d with
  | [] => None
  | (k, v) :: d' => if str_eqb k key then Some v else lookup key d'
  end.

(** The keys of a [dict], each once, in insertion order. *)
Fixpoint dict_keys (seen : list str) (d : list (str * pyval)) : list str :=
  match d with
  | [] => []
  | (k, _) :: d' =>
      if existsb (str_eqb k) seen then dict_keys seen d'
      else k :: dict_keys (k :: seen) d'
  end.

(** [key in v] for a [str] key. *)
Definition py_contains (v : pyval) (key : str) : result bool :=
  match v with
  | PDict d => Ok (match lookup key d with Some _ => true | None => false end)
  | PList l => Ok (existsb (fun x => match x with PStr s => str_eqb s key | _ => false end) l)
  | PStr s => Ok (contains s key)
  | _ => Raise TypeError
  end.

(** [v[key]] for a [str] key. *)
Definition py_getitem (v : pyval) (key : str) : result pyval :=
  match v with
  | PDict d => match lookup key d with Some x => Ok x | None => Raise KeyError end
  | _ => Raise TypeError
  end.

(** [v[0]]; the keys of a decoded [dict] are strings, so [0] is none. *)
Definition py_getitem_0 (v : pyval) : result pyval :=
  match v with
  | PList l => match l with x :: _ => Ok x | [] => Raise IndexError end
  | PStr s => match s with c :: _ => Ok (PStr [c]) | [] => Raise IndexError end
  | PDict _ => Raise KeyError
  | _ => Raise TypeError
  end.

(** [v.get(key, default)]: only a [dict] has the method. *)
Definition py_get (v : pyval) (key : str) (default : pyval) : result pyval :=
  match v with
  | PDict d => Ok (match lookup key d with Some x => x | None => default end)
  | _ => Raise AttributeError
  end.

(** The items [for ... in v] visits. *)
Definition py_iter (v : pyval) : result (list pyval) :=
  match v with
  | PList l => Ok l
  | PStr s => Ok (map (fun c => PStr [c]) s)
  | PDict d => Ok (map PStr (dict_keys [] d))
  | _ => Raise TypeError
  end.

(** The dataclass [ChapterData].  Python does not check the annotations:
    [title], [summary] and [order] hold whatever [dict.get] returned. *)
Module ChapterData.
Record t := mk {
  title : pyval;
  start_sec : Z;
  end_sec : option Z;
  summary : pyval;
  tags : option str;
  source : str;
  confidence : option float;
  order : pyval
}.
End ChapterData.

(* ================================================================== *)
(** ** backend/services/llm_chapter_generator.py *)
(* ================================================================== *)

Module Generator.

(** What [logging.error] is called with. *)
Inductive log_record :=
| LogCallFailedStatus
| LogCallFailed
| LogDecodeFailed
| LogRowFailed (e : exn).

Definition log := list log_record.

(** A computation that may write to the log and may raise. *)
Definition M (A : Type) : Type := log -> result A * log.

Definition ret {A} (a : A) : M A := fun lg => (Ok a, lg).

Definition raise {A} (e : exn) : M A := fun lg => (Raise e, lg).

Definition bind {A B} (m : M A) (k : A -> M B) : M B :=
  fun lg =>
    match m lg with
    | (Ok a, lg') => k a lg'
    | (Raise e, lg') => (Raise e, lg')
    end.

Definition lift {A} (r : result A) : M A := fun lg => (r, lg).

Definition logging_error (r : log_record) : M unit :=
  fun lg => (Ok tt, lg ++ [r]).

Declare Scope py_scope.
Delimit Scope py_scope with py.
Notation "x <- m ;; k" := (bind m (fun x => k))
  (at level 61, m at next level, right associativity) : py_scope.
Notation "m ;; k" := (bind m (fun _ => k))
  (at level 61, right associativity) : py_scope.

(** What the functions are run against.  Outside the repository: the
    configured key, the provider ([post_chat prompt] is what [httpx]
    posting the prompt, checking the status and decoding the body comes
    to), [json.loads], and the outcome of [sorted] on keys that are not
    all integers (which comparisons run, and whether one raises, is the
    sorting algorithm's matter).  The literal text of [PROMPT_TEMPLATE]
    before and between its two fields is left open as well: it reaches
    the provider only. *)
Record Env := {
  volcengine_api_key : option str;
  post_chat : str -> result pyval;
  json_loads : str -> result pyval;
  PROMPT_TEMPLATE_head : str;
  PROMPT_TEMPLATE_middle : str;
  sorted_mixed_keys : list ChapterData.t -> result (list ChapterData.t)
}.

Definition _format_seconds (total_seconds : Z) : str :=
  let hours := total_seconds / 3600 in
  let minutes := (total_seconds mod 3600) / 60 in
  let seconds := total_seconds mod 60 in
  format_02d hours ++ lit ":" ++ format_02d minutes ++ lit ":" ++ format_02d seconds.

(** [sorted(transcript_lines, key=lambda l: l.start_sec)] *)
Definition sorted_by_start (transcript_lines : list TranscriptLine.t) : list TranscriptLine.t :=
  sorted (fun a b => TranscriptLine.start_sec a <=? TranscriptLine.start_sec b)
         transcript_lines.

(** [l.end_sec if l.end_sec is not None else l.start_sec] *)
Definition end_value (l : TranscriptLine.t) : Z :=
  match TranscriptLine.end_sec l with
  | Some e => e
  | None => TranscriptLine.start_sec l
  end.

Definition _build_transcript_text (transcript_lines : list TranscriptLine.t) : str :=
  let sorted_lines := sorted_by_start transcript_lines in
  let segments :=
    map (fun line =>
           lit "[" ++ _format_seconds (TranscriptLine.start_sec line) ++ lit " --> "
           ++ _format_seconds (end_value line) ++ lit "] " ++ TranscriptLine.text line)
        sorted_lines in
  join [10%N] segments.

(** [min(candidates, key=lambda x: abs(x - target))]: the first of the
    closest candidates. *)
Definition _nearest_time (target : Z) (candidates : list Z) : Z :=
  match candidates with
  | [] => target
  | c :: cs =>
      fold_left (fun closest x =>
                   if Z.abs (x - target) <? Z.abs (closest - target) then x else closest)
                cs c
  end.

Definition _snap_chapters_to_transcript
    (chapters : list ChapterData.t) (transcript_lines : list TranscriptLine.t)
  : list ChapterData.t :=
  match chapters, transcript_lines with
  | [], _ => chapters
  | _, [] => chapters
  | _ :: _, l0 :: ls =>
      let starts := map TranscriptLine.start_sec transcript_lines in
      let ends := map end_value transcript_lines in
      let min_time := fold_left Z.min (map TranscriptLine.start_sec ls) (TranscriptLine.start_sec l0) in
      let max_time := fold_left Z.max (map end_value ls) (end_value l0) in
      map (fun ch =>
             let start_raw := Z.max (Z.min (ChapterData.start_sec ch) max_time) min_time in
             let end_raw :=
               Z.max (Z.min (match ChapterData.end_sec ch with
                             | Some e => e
                             | None => ChapterData.start_sec ch
                             end) max_time) min_time in
             let snapped_start := _nearest_time start_raw starts in
             let snapped_end := _nearest_time end_raw ends in
             let snapped_end := if snapped_end <? snapped_start then snapped_start else snapped_end in
             ChapterData.mk (ChapterData.title ch) snapped_start (Some snapped_end)
                            (ChapterData.summary ch) (ChapterData.tags ch)
                            (ChapterData.source ch) (ChapterData.confidence ch)
                            (ChapterData.order ch))
          chapters
  end.

(** [duration] of [_fallback_stub] and [duration_sec] of
    [generate_chapters_from_transcript], from the last sorted line. *)
Definition duration_of (last : TranscriptLine.t) : Z :=
  let duration := int_or (TranscriptLine.end_sec last) (TranscriptLine.start_sec last) in
  Z.max duration (TranscriptLine.start_sec last).

Definition _fallback_stub (transcript_lines : list TranscriptLine.t) (max_chapters : option Z)
  : list ChapterData.t :=
  match transcript_lines with
  | [] => []
  | l0 :: _ =>
      let sorted_lines := sorted_by_start transcript_lines in
      let duration := duration_of (last sorted_lines l0) in
      let chapter_count := Z.min (int_or max_chapters 10) 10 in
      let step := Z.max (duration / chapter_count) 1 in
      map (fun idx =>
             let start := idx * step in
             let end_ := Z.min ((idx + 1) * step) duration in
             let title := lit "Chapter " ++ str_of_int (idx + 1) ++ lit ": "
                          ++ _format_seconds start ++ lit " - " ++ _format_seconds end_ in
             ChapterData.mk (PStr title) start (Some end_)
                            (PStr (lit "Placeholder summary for this segment."))
                            None (lit "auto_stub") (Some 0.5%float) (PInt (idx + 1)))
          (range chapter_count)
  end.

Definition regenerate_single_chapter
    (transcript_lines : list TranscriptLine.t) (new_start_sec : Z)
    (existing_title : str) (existing_summary : option str) : ChapterData.t :=
  let context_line :=
    find (fun line => new_start_sec <=? TranscriptLine.start_sec line) transcript_lines in
  let context_text :=
    match context_line with
    | Some line => TranscriptLine.text line
    | None => lit "No nearby transcript context."
    end in
  let title := lit "Adjusted Chapter @ " ++ _format_seconds new_start_sec in
  let summary := lit "Auto-updated using nearby transcript: " ++ firstn 120 context_text in
  ChapterData.mk (PStr title) new_start_sec None (PStr summary) None
                 (lit "ai_edit") (Some 0.6%float) PNone.

(** The key [(c.order or 0, c.start_sec)] when its first component is an
    [int] (a [bool] is one). *)
Definition order_or_0 (c : ChapterData.t) : pyval :=
  if truthy (ChapterData.order c) then ChapterData.order c else PInt 0.

Definition sort_key (c : ChapterData.t) : option (Z * Z) :=
  match order_or_0 c with
  | PInt z => Some (z, ChapterData.start_sec c)
  | PBool b => Some (Z.b2z b, ChapterData.start_sec c)
  | _ => None
  end.

(** The order of tuples of two integers. *)
Definition key_le (a b : Z * Z) : bool :=
  (fst a <? fst b) || ((fst a =? fst b) && (snd a <=? snd b)).

Definition chapter_le (a b : ChapterData.t) : bool :=
  match sort_key a, sort_key b with
  | Some ka, Some kb => key_le ka kb
  | _, _ => true
  end.

Section WithEnv.
Variable rt : Runtime.
Variable env : Env.

Definition _hms_to_seconds (time_str : pyval) : result Z :=
  match time_str with
  | PStr time_str =>
      (parts <- rmap (int rt) (split time_str 58) ;;
       match parts with
       | [minutes; seconds] => Ok (minutes * 60 + seconds)
       | [hours; minutes; seconds] => Ok (hours * 3600 + minutes * 60 + seconds)
       | _ => Raise ValueError
       end)%result
  | _ => Raise AttributeError
  end.

(** [PROMPT_TEMPLATE.format(VIDEO_DURATION_MINUTES=..., TRANSCRIPT_TEXT=...)] *)
Definition PROMPT_TEMPLATE_format (duration_minutes : Z) (transcript_text : str) : str :=
  PROMPT_TEMPLATE_head env ++ str_of_int duration_minutes
  ++ PROMPT_TEMPLATE_middle env ++ transcript_text ++ [10%N].

(** Without a key there is no call; every failure of the call is logged
    and becomes [None]. *)
Definition _call_volcengine_chat (prompt : str) : M pyval :=
  match volcengine_api_key env with
  | None | Some [] => ret PNone
  | Some (_ :: _) =>
      match post_chat env prompt with
      | Ok v => ret v
      | Raise HTTPStatusError => (logging_error LogCallFailedStatus ;; ret PNone)%py
      | Raise _ => (logging_error LogCallFailed ;; ret PNone)%py
      end
  end.

(** The body of the [try] of the loop of [_parse_llm_response]; [idx] is
    the position [enumerate] gives. *)
Definition parse_chapter_row (idx : Z) (ch : pyval) : result ChapterData.t :=
  (start <- py_get ch (lit "start") (PStr (lit "00:00:00")) ;;
   start_sec <- _hms_to_seconds start ;;
   end_ <- py_get ch (lit "end") (PStr (lit "00:00:00")) ;;
   end_sec <- _hms_to_seconds end_ ;;
   title <- py_get ch (lit "title") (PStr (lit "Chapter " ++ str_of_int (idx + 1))) ;;
   reason <- py_get ch (lit "reason") PNone ;;
   summary <- (if truthy reason then Ok reason else py_get ch (lit "summary") PNone) ;;
   order <- py_get ch (lit "index") (PInt (idx + 1)) ;;
   Ok (ChapterData.mk title start_sec (Some end_sec) summary None
                      (lit "auto_llm") None order))%result.

(** The loop of [_parse_llm_response] from position [idx] on, [chapters]
    holding what was appended so far. *)
Fixpoint parse_chapter_rows (idx : Z) (chapters_raw : list pyval)
    (chapters : list ChapterData.t) : M (list ChapterData.t) :=
  match chapters_raw with
  | [] => ret chapters
  | ch :: rest =>
      match parse_chapter_row idx ch with
      | Ok c => parse_chapter_rows (idx + 1) rest (chapters ++ [c])
      | Raise exc =>
          (logging_error (LogRowFailed exc) ;;
           parse_chapter_rows (idx + 1) rest chapters)%py
      end
  end.

Definition _parse_llm_response (data : pyval) : M (list ChapterData.t) :=
  if negb (truthy data) then ret [] else
  (has_choices <- lift (py_contains data (lit "choices")) ;;
   if negb has_choices then ret [] else
   choices <- lift (py_getitem data (lit "choices")) ;;
   if negb (truthy choices) then ret [] else
   choice <- lift (py_getitem_0 choices) ;;
   message <- lift (py_getitem choice (lit "message")) ;;
   content <- lift (py_get message (lit "content") (PStr [])) ;;
   match (match content with
          | PStr s => json_loads env s
          | _ => Raise TypeError
          end) with
   | Raise JSONDecodeError =>
       logging_error LogDecodeFailed ;; ret []
   | Raise e => raise e
   | Ok parsed =>
       chapters_raw <- lift (py_get parsed (lit "chapters") (PList [])) ;;
       rows <- lift (py_iter chapters_raw) ;;
       parse_chapter_rows 0 rows []
   end)%py.

(** [sorted(chapters_snapped, key=lambda c: (c.order or 0, c.start_sec))] *)
Definition sorted_chapters (chapters : list ChapterData.t) : result (list ChapterData.t) :=
  if forallb (fun c => match sort_key c with Some _ => true | None => false end) chapters
  then Ok (sorted chapter_le chapters)
  else sorted_mixed_keys env chapters.

Definition generate_chapters_from_transcript
    (transcript_lines : list TranscriptLine.t) (max_chapters : option Z)
  : M (list ChapterData.t) :=
  match transcript_lines with
  | [] => ret []
  | l0 :: _ =>
      let sorted_lines := sorted_by_start transcript_lines in
      let duration_sec := duration_of (last sorted_lines l0) in
      let duration_minutes := Z.max 1 (duration_sec / 60) in
      let transcript_text := _build_transcript_text sorted_lines in
      let prompt := PROMPT_TEMPLATE_format duration_minutes transcript_text in
      (api_response <- _call_volcengine_chat prompt ;;
       chapters <- (if truthy api_response then _parse_llm_response api_response
                    else ret []) ;;
       match chapters with
       | _ :: _ =>
           let chapters_snapped := _snap_chapters_to_transcript chapters sorted_lines in
           chapters_sorted <- lift (sorted_chapters chapters_snapped) ;;
           ret (slice_to chapters_sorted (int_or max_chapters 10))
       | [] => ret (_fallback_stub transcript_lines max_chapters)
       end)%py
  end.

End WithEnv.

End Generator.

(* ================================================================== *)
(** ** The vocabulary of the specification *)
(* ================================================================== *)

Import Generator.

Module Spec.

(** The set of segment starts and the set of segment ends-or-starts. *)
Definition starts (lines : list TranscriptLine.t) : list Z :=
  map TranscriptLine.start_sec lines.

Definition ends_or_starts (lines : list TranscriptLine.t) : list Z :=
  map end_value lines.

Definition is_min (m : Z) (l : list Z) : Prop := In m l /\ Forall (fun x => m <= x) l.

Definition is_max (m : Z) (l : list Z) : Prop := In m l /\ Forall (fun x => x <= m) l.

(** The data model's segment: an end, when there is one, is not before
    the start. *)
Definition well_formed (l : TranscriptLine.t) : Prop :=
  match TranscriptLine.end_sec l with
  | Some e => TranscriptLine.start_sec l <= e
  | None => True
  end.

(** Two chapters that differ in [start_sec] and [end_sec] at most. *)
Definition same_metadata (a b : ChapterData.t) : Prop :=
  ChapterData.title a = ChapterData.title b
  /\ ChapterData.summary a = ChapterData.summary b
  /\ ChapterData.tags a = ChapterData.tags b
  /\ ChapterData.source a = ChapterData.source b
  /\ ChapterData.confidence a = ChapterData.confidence b
  /\ ChapterData.order a = ChapterData.order b.

(** What holds of a chapter [c] snapped against [lines]. *)
Definition snapped (lines : list TranscriptLine.t) (c : ChapterData.t) : Prop :=
  In (ChapterData.start_sec c) (starts lines)
  /\ exists e,
       ChapterData.end_sec c = Some e
       /\ (In e (ends_or_starts lines) \/ e = ChapterData.start_sec c)
       /\ ChapterData.start_sec c <= e
       /\ (Forall well_formed lines ->
           forall min_time max_time,
             is_min min_time (starts lines) -> is_max max_time (ends_or_starts lines) ->
             min_time <= ChapterData.start_sec c <= max_time
             /\ min_time <= e <= max_time).

(** A segment of [lines] that no segment starts after. *)
Definition last_by_start (lines : list TranscriptLine.t) (lst : TranscriptLine.t) : Prop :=
  In lst lines
  /\ Forall (fun l => TranscriptLine.start_sec l <= TranscriptLine.start_sec lst) lines.

(** Consecutive chapters meet: each ends where the next starts. *)
Definition contiguous (out : list ChapterData.t) : Prop :=
  forall i a b,
    nth_error out i = Some a -> nth_error out (S i) = Some b ->
    ChapterData.end_sec a = Some (ChapterData.start_sec b).

(** The equal split of [[0, duration]] into [count] chapters of [step]
    seconds. *)
Definition equal_split (duration count step : Z) (out : list ChapterData.t) : Prop :=
  length out = Z.to_nat count
  /\ (forall i, 0 <= i < count ->
      exists c,
        nth_error out (Z.to_nat i) = Some c
        /\ ChapterData.start_sec c = i * step
        /\ ChapterData.end_sec c = Some (Z.min ((i + 1) * step) duration)
        /\ ChapterData.confidence c = Some 0.5%float
        /\ ChapterData.source c = lit "auto_stub"
        /\ ChapterData.order c = PInt (i + 1))
  /\ (count <= duration ->
      contiguous out
      /\ Forall (fun c => exists e, ChapterData.end_sec c = Some e
                                   /\ ChapterData.start_sec c < e) out
      /\ (exists c, nth_error out 0 = Some c /\ ChapterData.start_sec c = 0)
      /\ (exists c, nth_error out (Z.to_nat (count - 1)) = Some c
                    /\ ChapterData.end_sec c = Some (count * step))
      /\ count * step = duration - duration mod count).

(** A run of white space. *)
Definition blank (w : str) : Prop := Forall (fun c => isspace c = true) w.

(** A group of exactly two decimal digits, and the number it writes. *)
Definition two_digit (rt : Runtime) (g : str) (v : Z) : Prop :=
  exists a b da db,
    g = [a; b] /\ to_decimal rt a = Some da /\ to_decimal rt b = Some db
    /\ v = Z.of_N (10 * da + db).

(** [HH:MM:SS], and the seconds [H*3600 + M*60 + S] it stands for. *)
Definition hms (rt : Runtime) (t : str) (sec : Z) : Prop :=
  exists h m s H M S,
    t = h ++ lit ":" ++ m ++ lit ":" ++ s
    /\ two_digit rt h H /\ two_digit rt m M /\ two_digit rt s S
    /\ sec = H * 3600 + M * 60 + S.

(** A line of the form [[HH:MM:SS --> HH:MM:SS] <text>]: the two
    timestamps, the literal arrow with any white space around it, and the
    rest of the line. *)
Definition timestamped (rt : Runtime) (line : str) (start_sec end_sec : Z) (rest : str) : Prop :=
  exists t1 w1 w2 t2,
    line = lit "[" ++ t1 ++ w1 ++ lit "-->" ++ w2 ++ t2 ++ lit "]" ++ rest
    /\ hms rt t1 start_sec /\ blank w1 /\ blank w2 /\ hms rt t2 end_sec.

(** What the parser emits for a list of raw lines: one tuple for each line
    that, once trimmed, has the form above, in the order of the lines. *)
Inductive emits (rt : Runtime) : list str -> list (Z * option Z * str) -> Prop :=
| emits_nil : emits rt [] []
| emits_skip raw raws out :
    (forall s e r, ~ timestamped rt (strip raw) s e r) ->
    emits rt raws out ->
    emits rt (raw :: raws) out
| emits_line raw raws out s e r :
    timestamped rt (strip raw) s e r ->
    emits rt raws out ->
    emits rt (raw :: raws) ((s, Some e, strip r) :: out).

(** The candidates of the rows that convert, from position [idx] on: what
    the loop of the Response Parser appends. *)
Fixpoint converted (rt : Runtime) (idx : Z) (rows : list pyval) : list ChapterData.t :=
  match rows with
  | [] => []
  | ch :: rest =>
      match parse_chapter_row rt idx ch with
      | Ok c => c :: converted rt (idx + 1) rest
      | Raise _ => converted rt (idx + 1) rest
      end
  end.

(** What the loop logs: one record for each row that fails. *)
Fixpoint row_failures (rt : Runtime) (idx : Z) (rows : list pyval) : log :=
  match rows with
  | [] => []
  | ch :: rest =>
      match parse_chapter_row rt idx ch with
      | Ok _ => row_failures rt (idx + 1) rest
      | Raise exc => LogRowFailed exc :: row_failures rt (idx + 1) rest
      end
  end.

(** A computation whose result does not depend on the log it starts
    from, and that only appends to it. *)
Definition writes {A} (m : M A) (r : result A) (w : log) : Prop :=
  forall lg, m lg = (r, lg ++ w).

(** The timestamp a row holds under [key], the default when it has none. *)
Definition timestamp_of (d : list (str * pyval)) (key : string) : pyval :=
  match lookup (lit key) d with
  | Some v => v
  | None => PStr (lit "00:00:00")
  end.

(** Chapter [a] is not after chapter [b] in the order of
    [(order or 0, start_sec)]. *)
Definition key_before (a b : ChapterData.t) : Prop :=
  exists ka kb,
    sort_key a = Some ka /\ sort_key b = Some kb
    /\ (fst ka < fst kb \/ (fst ka = fst kb /\ snd ka <= snd kb)).

(** The invariant of the final chapter list [out], as the code keeps it:
    [candidates] is what the model step returned and [duration] the
    duration of the transcript. *)
Definition final_list (lines : list TranscriptLine.t) (max_chapters : option Z)
    (duration : Z) (candidates out : list ChapterData.t) : Prop :=
  out <> []
  /\ StronglySorted key_before out
  /\ Z.of_nat (length out) <= int_or max_chapters 10
  /\ (candidates <> [] -> Forall (snapped lines) out)
  /\ (candidates = [] ->
      out = _fallback_stub lines max_chapters
      /\ Forall (fun c => 0 <= ChapterData.start_sec c
                          /\ exists e, ChapterData.end_sec c = Some e /\ e <= duration)
                out).

End Spec.

(** The transcript and the candidate of the specification's scenario C. *)
Definition scenario_lines : list TranscriptLine.t :=
  [TranscriptLine.mk 0 (Some 10) (lit "a");
   TranscriptLine.mk 10 (Some 20) (lit "b");
   TranscriptLine.mk 20 (Some 30) (lit "c")].

(** A provider that answers every prompt with [response], and a decoder
    that reads the content of every answer as [decoded]. *)
Definition env_answering (key : option str) (response decoded : pyval) : Env :=
  {| volcengine_api_key := key;
     post_chat := fun _ => Ok response;
     json_loads := fun _ => Ok decoded;
     PROMPT_TEMPLATE_head := [];
     PROMPT_TEMPLATE_middle := [];
     sorted_mixed_keys := fun _ => Raise TypeError |}.

(** A chat completion whose first choice carries [content]. *)
Definition completion (content : pyval) : pyval :=
  PDict [(lit "choices",
          PList [PDict [(lit "message", PDict [(lit "content", content)])]])].

(** What the content of scenario C decodes to. *)
Definition scenario_C_decoded : pyval :=
  PDict [(lit "chapters",
          PList [PDict [(lit "index", PInt 1);
                        (lit "start", PStr (lit "00:00:05"));
                        (lit "end", PStr (lit "00:00:15"));
                        (lit "title", PStr (lit "T"))]])].

Definition candidate (start_sec : Z) (end_sec : option Z) (order : pyval) : ChapterData.t :=
  ChapterData.mk (PStr (lit "T")) start_sec end_sec PNone None (lit "auto_llm") None order.

(* ================================================================== *)
(** ** Vocabulary of the further properties *)
(* ================================================================== *)

Module Behaviour.

(** What [int] does with the characters [a] once white space and sign
    are read: [sign] is [1] or [-1]. *)
Definition int_tail (rt : Runtime) (sign : Z) (a : str) : result Z :=
  match scan_digits false 0 0%N a with
  | None => Raise ValueError
  | Some (v, n, rest) =>
      if (n =? 0)%N then Raise ValueError
      else if ((640 <? n) && (0 <? int_max_str_digits rt) && (int_max_str_digits rt <? n))%N
      then Raise ValueError
      else match c_skip_space rest with
           | [] => Ok (sign * v)
           | _ :: _ => Raise ValueError
           end
  end.

(** Chapter [c] is candidate [ch] with its boundaries moved to the
    nearest timestamps of [lines]: the start to a segment start nearest
    to the candidate's start clamped into [[min_time, max_time]], the end
    to a segment end-or-start nearest to the candidate's clamped end, or
    to the start when that end is before it. *)
Definition nearest_boundaries (lines : list TranscriptLine.t) (min_time max_time : Z)
    (ch c : ChapterData.t) : Prop :=
  let start_raw := Z.max (Z.min (ChapterData.start_sec ch) max_time) min_time in
  let end_raw :=
    Z.max (Z.min (match ChapterData.end_sec ch with
                  | Some e => e
                  | None => ChapterData.start_sec ch
                  end) max_time) min_time in
  Spec.same_metadata ch c
  /\ In (ChapterData.start_sec c) (Spec.starts lines)
  /\ Forall (fun x => Z.abs (ChapterData.start_sec c - start_raw) <= Z.abs (x - start_raw))
            (Spec.starts lines)
  /\ exists e,
       In e (Spec.ends_or_starts lines)
       /\ Forall (fun x => Z.abs (e - end_raw) <= Z.abs (x - end_raw))
                 (Spec.ends_or_starts lines)
       /\ ChapterData.end_sec c = Some (Z.max e (ChapterData.start_sec c)).

(** A chapter whose boundaries are timestamps of [lines] already. *)
Definition aligned (lines : list TranscriptLine.t) (c : ChapterData.t) : Prop :=
  In (ChapterData.start_sec c) (Spec.starts lines)
  /\ exists e,
       ChapterData.end_sec c = Some e
       /\ In e (Spec.ends_or_starts lines)
       /\ ChapterData.start_sec c <= e.

(** A segment the prompt can carry and the Transcript Parser can read
    back: its times are written with two-digit hours, and its text holds
    no line boundary. *)
Definition renderable (l : TranscriptLine.t) : Prop :=
  0 <= TranscriptLine.start_sec l < 360000
  /\ 0 <= end_value l < 360000
  /\ Forall (fun c => is_linebreak c = false) (TranscriptLine.text l).

(** The tuple the Transcript Parser gives for a segment. *)
Definition as_parsed (l : TranscriptLine.t) : Z * option Z * str :=
  (TranscriptLine.start_sec l, Some (end_value l), strip (TranscriptLine.text l)).

(** A tuple as the Transcript Parser forms it: two groups of two digits
    for minutes and seconds reach 99, so a time is at most
    [99*3600 + 99*60 + 99]; the end is there; the text is trimmed. *)
Definition parsed_segment (x : Z * option Z * str) : Prop :=
  let '(start_sec, end_sec, text) := x in
  0 <= start_sec <= 362439
  /\ (exists e, end_sec = Some e /\ 0 <= e <= 362439)
  /\ strip text = text.

(** No model to ask: no key is configured, or the provider fails on
    every prompt. *)
Definition unavailable (env : Env) : Prop :=
  match volcengine_api_key env with
  | None | Some [] => True
  | Some (_ :: _) => forall prompt, exists e, post_chat env prompt = Raise e
  end.

(** What [_call_volcengine_chat] logs when there is no model to ask. *)
Definition call_failure_log (env : Env) (w : log) : Prop :=
  match volcengine_api_key env with
  | None | Some [] => w = []
  | Some (_ :: _) => w = [LogCallFailedStatus] \/ w = [LogCallFailed]
  end.

(** A candidate as the Response Parser builds it. *)
Definition model_candidate (c : ChapterData.t) : Prop :=
  ChapterData.source c = lit "auto_llm"
  /\ ChapterData.tags c = None
  /\ ChapterData.confidence c = None
  /\ exists e, ChapterData.end_sec c = Some e.

End Behaviour.

(* ================================================================== *)
(** ** backend/schemas.py, backend/models.py and backend/main.py *)
(* ================================================================== *)

(** The request body of [create_project_from_transcript]. *)
Module ProjectCreate.
Record t := mk {
  title : str;
  platform : option str;
  max_chapters : option Z;
  transcript_txt : str
}.
End ProjectCreate.

(** The columns of a project that a handler sets; the store assigns the
    id and the two dates. *)
Module Project.
Record t := mk {
  title : str;
  platform : option str;
  duration_sec : option Z;
  max_chapters : Z
}.
End Project.

(** The columns of a stored chapter that the export reads. *)
Module Chapter.
Record t := mk {
  title : str;
  start_sec : Z
}.
End Chapter.

Module Main.

(** How a handler ends: with its response, with the [HTTPException] it
    raises, or with an exception it does not catch. *)
Inductive response (A : Type) :=
| Respond (a : A)
| HTTPException (status_code : Z) (detail : str)
| Unhandled (e : exn).
Arguments Respond {A} a.
Arguments HTTPException {A} status_code detail.
Arguments Unhandled {A} e.

Definition format_hms (total_seconds : Z) : str :=
  let hours := total_seconds / 3600 in
  let minutes := (total_seconds mod 3600) / 60 in
  let seconds := total_seconds mod 60 in
  format_02d hours ++ lit ":" ++ format_02d minutes ++ lit ":" ++ format_02d seconds.



(** [export_bilibili], given what the session returns: the project with
    this id, if there is one, and its chapters in the order of the
    query. *)
Definition export_bilibili (project : option Project.t) (chapters : list Chapter.t)
  : response str :=
  match project with
  | None => HTTPException 404 (lit "Project not found.")
  | Some _ =>
      let lines :=
        map (fun ch => format_hms (Chapter.start_sec ch) ++ lit " " ++ Chapter.title ch)
            chapters in
      Respond (join [10%N] lines)
  end.

End Main.

Module Bilibili.

(** A chapter the export writes on one line with an eight-character
    timestamp. *)
Definition one_line (ch : Chapter.t) : Prop :=
  0 <= Chapter.start_sec ch < 360000
  /\ Forall (fun c => is_linebreak c = false) (Chapter.title ch).

(** [line] is the timestamp of [ch], a space and its title. *)
Definition line_of (rt : Runtime) (ch : Chapter.t) (line : str) : Prop :=
  _hms_to_seconds rt (PStr (firstn 8 line)) = Ok (Chapter.start_sec ch)
  /\ skipn 8 line = lit " " ++ Chapter.title ch.

End Bilibili.

(* ================================================================== *)
(** * Properties *)
(* ================================================================== *)

(** ** The embedding on concrete inputs *)

Example int_signed_underscore : int ascii_runtime (lit " +1_0 ") = Ok 10.
Proof. reflexivity. Qed.

Example int_double_underscore : int ascii_runtime (lit "1__0") = Raise ValueError.
Proof. reflexivity. Qed.

Example splitlines_crlf :
  splitlines (lit "a" ++ [13; 10; 10]%N ++ lit "b" ++ [10]%N) = [lit "a"; []; lit "b"].
Proof. reflexivity. Qed.

Example _format_seconds_3725 : _format_seconds 3725 = lit "01:02:05".
Proof. reflexivity. Qed.

Example _hms_to_seconds_mm_ss :
  _hms_to_seconds ascii_runtime (PStr (lit "02:05")) = Ok 125
  /\ _hms_to_seconds ascii_runtime (PStr (lit "1:02:05")) = Ok 3725
  /\ _hms_to_seconds ascii_runtime (PStr (lit "5")) = Raise ValueError.
Proof. repeat split; reflexivity. Qed.

(** Scenario A's transcript, with a comment line and a line to trim. *)
Example parse_transcript_txt_scenario_A :
  Parser.parse_transcript_txt
    ascii_runtime
    (lit "[00:00:00-->00:00:10] hi" ++ [10]%N ++ lit "# note" ++ [10]%N
     ++ lit "  [00:00:10 -->  00:00:20]   bye  ")
  = Ok [(0, Some 10, lit "hi"); (10, Some 20, lit "bye")].
Proof. reflexivity. Qed.

(** Scenario B: an empty transcript gives no segment. *)
Example parse_transcript_txt_scenario_B :
  Parser.parse_transcript_txt ascii_runtime [] = Ok [].
Proof. reflexivity. Qed.

(** Scenario C: the candidate from 5 to 15 is snapped to 0 and 10, the
    first of the two closest starts and of the two closest ends. *)
Example _snap_chapters_to_transcript_scenario_C :
  _snap_chapters_to_transcript [candidate 5 (Some 15) (PInt 1)] scenario_lines
  = [candidate 0 (Some 10) (PInt 1)].
Proof. reflexivity. Qed.

(** ** Lists, minima and the stable sort *)

Lemma fold_left_min_le (l : list Z) (x : Z) :
  fold_left Z.min l x <= x /\ Forall (fun y => fold_left Z.min l x <= y) l.
Proof.
  revert x; induction l as [|a l IH]; intros x; cbn.
  - split; [lia | constructor].
  - destruct (IH (Z.min x a)) as [H1 H2]. split; [lia|].
    constructor; [lia | exact H2].
Qed.

Lemma fold_left_max_ge (l : list Z) (x : Z) :
  x <= fold_left Z.max l x /\ Forall (fun y => y <= fold_left Z.max l x) l.
Proof.
  revert x; induction l as [|a l IH]; intros x; cbn.
  - split; [lia | constructor].
  - destruct (IH (Z.max x a)) as [H1 H2]. split; [lia|].
    constructor; [lia | exact H2].
Qed.

Lemma fold_left_min_In (l : list Z) (x : Z) : In (fold_left Z.min l x) (x :: l).
Proof.
  revert x; induction l as [|a l IH]; intros x; cbn; [now left|].
  destruct (IH (Z.min x a)) as [H|H]; [|now right; right].
  rewrite <- H. destruct (Z.min_spec x a) as [[_ E]|[_ E]]; rewrite E; auto.
Qed.

Lemma fold_left_max_In (l : list Z) (x : Z) : In (fold_left Z.max l x) (x :: l).
Proof.
  revert x; induction l as [|a l IH]; intros x; cbn; [now left|].
  destruct (IH (Z.max x a)) as [H|H]; [|now right; right].
  rewrite <- H. destruct (Z.max_spec x a) as [[_ E]|[_ E]]; rewrite E; auto.
Qed.

(** The closest candidate is one of the candidates. *)
Lemma _nearest_time_In (target : Z) (candidates : list Z) :
  candidates <> [] -> In (_nearest_time target candidates) candidates.
Proof.
  destruct candidates as [|c cs]; [congruence|intros _]. unfold _nearest_time.
  revert c; induction cs as [|a cs IH]; intros c; cbn; [now left|].
  destruct (Z.abs (a - target) <? Z.abs (c - target)).
  - destruct (IH a) as [H|H]; [right; left; exact H | right; right; exact H].
  - destruct (IH c) as [H|H]; [left; exact H | right; right; exact H].
Qed.

(** No candidate is closer than the one chosen. *)
Lemma _nearest_time_closest (target : Z) (candidates : list Z) :
  Forall (fun x => Z.abs (_nearest_time target candidates - target) <= Z.abs (x - target))
         candidates.
Proof.
  destruct candidates as [|c cs]; [constructor|]. unfold _nearest_time.
  assert (G : forall best,
             Z.abs (fold_left (fun closest x =>
                      if Z.abs (x - target) <? Z.abs (closest - target) then x else closest)
                    cs best - target) <= Z.abs (best - target)
             /\ Forall (fun x => Z.abs (fold_left (fun closest x =>
                      if Z.abs (x - target) <? Z.abs (closest - target) then x else closest)
                    cs best - target) <= Z.abs (x - target)) cs).
  { induction cs as [|a cs IH]; intros best; cbn.
    - split; [lia | constructor].
    - destruct (Z.ltb_spec (Z.abs (a - target)) (Z.abs (best - target))) as [L|L].
      + destruct (IH a) as [H1 H2]. split; [lia|]. constructor; [exact H1 | exact H2].
      + destruct (IH best) as [H1 H2]. split; [exact H1|]. constructor; [lia | exact H2]. }
  destruct (G c) as [H1 H2]. constructor; [exact H1 | exact H2].
Qed.

Section StableSort.
Context {A : Type} (le : A -> A -> bool).

Lemma insert_sorted_In (x : A) (l : list A) (y : A) :
  In y (insert_sorted le x l) <-> y = x \/ In y l.
Proof.
  induction l as [|a l IH]; cbn.
  - intuition.
  - destruct (le x a); cbn; [intuition | rewrite IH; intuition].
Qed.

Lemma sorted_In (l : list A) (y : A) : In y (sorted le l) <-> In y l.
Proof.
  induction l as [|a l IH]; cbn; [tauto|].
  rewrite insert_sorted_In, IH. intuition.
Qed.

Lemma insert_sorted_length (x : A) (l : list A) :
  length (insert_sorted le x l) = S (length l).
Proof.
  induction l as [|a l IH]; cbn; [reflexivity|].
  destruct (le x a); cbn; [reflexivity | now rewrite IH].
Qed.

Lemma sorted_length (l : list A) : length (sorted le l) = length l.
Proof.
  induction l as [|a l IH]; cbn; [reflexivity|].
  now rewrite insert_sorted_length, IH.
Qed.

(** The comparison is a total preorder on the elements that have a key,
    which [P] picks. *)
Variable P : A -> Prop.
Hypothesis le_total : forall a b, P a -> P b -> le a b = true \/ le b a = true.
Hypothesis le_trans :
  forall a b c, P a -> P b -> P c -> le a b = true -> le b c = true -> le a c = true.

Lemma insert_sorted_StronglySorted (x : A) (l : list A) :
  P x -> Forall P l ->
  StronglySorted (fun a b => le a b = true) l ->
  StronglySorted (fun a b => le a b = true) (insert_sorted le x l).
Proof.
  intros Px Pl. induction 1 as [|a l Hs IH Ha]; cbn.
  - constructor; constructor.
  - inversion Pl as [|? ? Pa Pl']; subst.
    destruct (le x a) eqn:E.
    + constructor; [constructor; assumption|].
      constructor; [exact E|].
      rewrite Forall_forall in *. intros y Hy. apply (le_trans Px Pa); auto.
    + constructor; [exact (IH Pl')|].
      rewrite Forall_forall in *. intros y Hy.
      apply insert_sorted_In in Hy. destruct Hy as [->|Hy]; [|auto].
      destruct (le_total Px Pa) as [H|H]; [congruence | exact H].
Qed.

Lemma sorted_StronglySorted (l : list A) :
  Forall P l -> StronglySorted (fun a b => le a b = true) (sorted le l).
Proof.
  induction 1 as [|a l Pa Pl IH]; cbn; [constructor|].
  apply insert_sorted_StronglySorted; [exact Pa | | exact IH].
  rewrite Forall_forall in *. intros y Hy. apply Pl. exact (proj1 (sorted_In l y) Hy).
Qed.

End StableSort.

Lemma StronglySorted_firstn {A} (R : A -> A -> Prop) (n : nat) (l : list A) :
  StronglySorted R l -> StronglySorted R (firstn n l).
Proof.
  intros H; revert n; induction H as [|a l Hs IH Ha]; intros [|n]; cbn; try constructor.
  - apply IH.
  - rewrite Forall_forall in *. intros y Hy. apply Ha.
    revert Hy. clear. revert n. induction l as [|b l IH]; intros [|n]; cbn; intuition eauto.
Qed.

Lemma In_firstn {A} (n : nat) (l : list A) (x : A) : In x (firstn n l) -> In x l.
Proof.
  revert n; induction l as [|a l IH]; intros [|n]; cbn; intuition eauto.
Qed.

Lemma In_slice_to {A} (l : list A) (k : Z) (x : A) : In x (slice_to l k) -> In x l.
Proof. unfold slice_to; destruct (k <? 0); apply In_firstn. Qed.

Lemma sorted_nonempty {A} (le : A -> A -> bool) (l : list A) :
  l <> [] -> sorted le l <> [].
Proof.
  destruct l as [|a l]; [congruence|intros _ E].
  apply (f_equal (@List.length A)) in E. rewrite sorted_length in E. discriminate.
Qed.

(** The last line by start: it is one of the lines and no line starts
    later. *)
Lemma last_sorted_by_start (l0 : TranscriptLine.t) (ls : list TranscriptLine.t) :
  let lst := last (sorted_by_start (l0 :: ls)) l0 in
  In lst (l0 :: ls)
  /\ Forall (fun l => TranscriptLine.start_sec l <= TranscriptLine.start_sec lst) (l0 :: ls).
Proof.
  intros lst.
  assert (NE : sorted_by_start (l0 :: ls) <> []) by (apply sorted_nonempty; congruence).
  assert (Hin : In lst (sorted_by_start (l0 :: ls))).
  { destruct (exists_last NE) as (pre & z & E). subst lst. rewrite E, last_last.
    apply in_or_app; right; now left. }
  split; [unfold sorted_by_start in Hin; apply sorted_In in Hin; exact Hin|].
  rewrite Forall_forall. intros l Hl.
  apply (sorted_In (fun a b => TranscriptLine.start_sec a <=? TranscriptLine.start_sec b)) in Hl.
  fold (sorted_by_start (l0 :: ls)) in Hl.
  assert (SS : StronglySorted
                 (fun a b => (TranscriptLine.start_sec a <=? TranscriptLine.start_sec b) = true)
                 (sorted_by_start (l0 :: ls))).
  { apply sorted_StronglySorted with (P := fun _ => True).
    - intros a b _ _. rewrite !Z.leb_le. lia.
    - intros a b c _ _ _. rewrite !Z.leb_le. lia.
    - rewrite Forall_forall. auto. }
  destruct (exists_last NE) as (pre & z & E).
  subst lst. rewrite E in *. rewrite last_last.
  apply in_app_or in Hl. destruct Hl as [Hl|[<-|[]]]; [|lia].
  clear - SS Hl. induction pre as [|p pre IH]; [destruct Hl|].
  cbn in SS. inversion SS as [|? ? S1 F1]; subst.
  destruct Hl as [->|Hl]; [|auto].
  rewrite Forall_forall in F1. specialize (F1 z). rewrite Z.leb_le in F1.
  apply F1, in_or_app; right; now left.
Qed.

(** ** The Snapper *)

Lemma snap_cons (ch : ChapterData.t) (chs : list ChapterData.t)
      (l0 : TranscriptLine.t) (ls : list TranscriptLine.t) (c : ChapterData.t) :
  In c (_snap_chapters_to_transcript (ch :: chs) (l0 :: ls)) ->
  exists ch0 s e,
    In ch0 (ch :: chs)
    /\ Spec.same_metadata ch0 c
    /\ ChapterData.start_sec c = s /\ ChapterData.end_sec c = Some (if e <? s then s else e)
    /\ In s (Spec.starts (l0 :: ls)) /\ In e (Spec.ends_or_starts (l0 :: ls)).
Proof.
  unfold _snap_chapters_to_transcript. rewrite in_map_iff.
  intros (ch0 & <- & Hin). cbn [ChapterData.start_sec ChapterData.end_sec].
  eexists ch0, _, _. split; [exact Hin|]. split; [repeat split|].
  split; [reflexivity|]. split; [reflexivity|].
  split; apply _nearest_time_In; discriminate.
Qed.

(** Position by position the Snapper keeps what is not a boundary. *)
Lemma snap_same_metadata (chapters : list ChapterData.t)
      (transcript_lines : list TranscriptLine.t) :
  Forall2 Spec.same_metadata chapters (_snap_chapters_to_transcript chapters transcript_lines).
Proof.
  assert (R : forall l : list ChapterData.t, Forall2 Spec.same_metadata l l).
  { induction l; constructor; [repeat split | assumption]. }
  destruct chapters as [|ch chs]; [constructor|].
  destruct transcript_lines as [|l0 ls]; [apply R|].
  unfold _snap_chapters_to_transcript.
  generalize (ch :: chs). intros l.
  induction l as [|a l IH]; cbn [map]; constructor; [repeat split | exact IH].
Qed.

(** C7. The Snapper rewrites [start_sec] and [end_sec] only: the output
    lists, position by position, chapters with the title, summary, tags,
    source, confidence and order of the candidates; with no candidate or
    no segment the candidates come back unchanged. *)
Theorem snap_preserves_metadata (chapters : list ChapterData.t)
        (transcript_lines : list TranscriptLine.t) :
  Forall2 Spec.same_metadata chapters (_snap_chapters_to_transcript chapters transcript_lines)
  /\ _snap_chapters_to_transcript [] transcript_lines = []
  /\ _snap_chapters_to_transcript chapters [] = chapters.
Proof.
  split; [apply snap_same_metadata|].
  split; [reflexivity | now destruct chapters].
Qed.

(** A chapter from a segment start [s] to the later of [s] and a segment
    end-or-start [e] is snapped. *)
Lemma snapped_intro (lines : list TranscriptLine.t) (c : ChapterData.t) (s e : Z) :
  ChapterData.start_sec c = s ->
  ChapterData.end_sec c = Some (if e <? s then s else e) ->
  In s (Spec.starts lines) -> In e (Spec.ends_or_starts lines) ->
  Spec.snapped lines c.
Proof.
  intros Hs He Is Ie.
  unfold Spec.snapped. rewrite Hs, He. split; [exact Is|].
  eexists; split; [reflexivity|].
  split; [destruct (e <? s); auto|].
  split; [destruct (Z.ltb_spec e s); lia|].
  intros WF lo hi [_ Lo] [_ Hi].
  rewrite Forall_forall in Lo, Hi, WF.
  assert (Bs : lo <= s <= hi).
  { split; [apply Lo, Is|].
    unfold Spec.starts in Is. apply in_map_iff in Is. destruct Is as (l & <- & Hl).
    transitivity (end_value l); [|apply Hi, in_map, Hl].
    specialize (WF l Hl). unfold Spec.well_formed, end_value in *.
    destruct (TranscriptLine.end_sec l); lia. }
  assert (Be : lo <= e <= hi).
  { split; [|apply Hi, Ie].
    unfold Spec.ends_or_starts in Ie. apply in_map_iff in Ie. destruct Ie as (l & <- & Hl).
    transitivity (TranscriptLine.start_sec l); [apply Lo, in_map, Hl|].
    specialize (WF l Hl). unfold Spec.well_formed, end_value in *.
    destruct (TranscriptLine.end_sec l); lia. }
  destruct (e <? s); lia.
Qed.

(** C2, as the code has it.  Against a non-empty segment list, every
    chapter the Snapper returns starts at a segment start; its end is a
    segment end-or-start, or the chapter's own start where the nearest end
    fell before it; the end is never before the start; and when every
    segment's end is at or after its start, both lie within
    [[min_time, max_time]]. *)
Theorem snap_boundaries (chapters : list ChapterData.t)
        (transcript_lines : list TranscriptLine.t) (c : ChapterData.t) :
  transcript_lines <> [] ->
  In c (_snap_chapters_to_transcript chapters transcript_lines) ->
  Spec.snapped transcript_lines c.
Proof.
  intros NE Hin.
  destruct transcript_lines as [|l0 ls]; [congruence|].
  destruct chapters as [|ch chs]; [destruct Hin|].
  apply snap_cons in Hin. destruct Hin as (ch0 & s & e & _ & _ & Hs & He & Is & Ie).
  eapply snapped_intro; eassumption.
Qed.

(** The chapter of scenario C is snapped to a start and an end of the
    transcript. *)
Lemma snap_boundaries_scenario_C :
  Spec.snapped scenario_lines (candidate 0 (Some 10) (PInt 1)).
Proof.
  apply (@snap_boundaries [candidate 5 (Some 15) (PInt 1)] scenario_lines).
  - discriminate.
  - left; reflexivity.
Defined.

(** C2 fails as stated.  With segments [(0, 5)] and [(10, 100)], a
    candidate from 10 to 10 is snapped to end 5, which is before its start
    10, so the end is forced to 10: not a member of the end-or-start set.
    And against the one segment [(10, 5)], whose end is before its start,
    the returned start 10 lies above [max_time = 5]. *)
Lemma snap_end_not_in_end_set :
  (let lines := [TranscriptLine.mk 0 (Some 5) (lit "a");
                 TranscriptLine.mk 10 (Some 100) (lit "b")] in
   exists c e,
     _snap_chapters_to_transcript [candidate 10 (Some 10) (PInt 1)] lines = [c]
     /\ ChapterData.end_sec c = Some e
     /\ existsb (Z.eqb e) (Spec.ends_or_starts lines) = false)
  /\ (let lines := [TranscriptLine.mk 10 (Some 5) (lit "a")] in
      exists c,
        _snap_chapters_to_transcript [candidate 10 (Some 10) (PInt 1)] lines = [c]
        /\ Spec.is_max 5 (Spec.ends_or_starts lines)
        /\ 5 < ChapterData.start_sec c).
Proof.
  split.
  - eexists _, _. split; [reflexivity|]. split; reflexivity.
  - eexists. split; [reflexivity|]. split; [|reflexivity].
    split; [now left | constructor; [cbn; lia | constructor]].
Qed.

(** ** The single-chapter edit *)

(** C6. The regenerated chapter keeps the new start, has source
    ["ai_edit"], confidence 0.6, no end and no order; its summary quotes
    the first 120 characters of the text of the first segment, in the
    order supplied, that starts at or after the new start, and a
    placeholder when there is none.  With starts 0, 10, 20 and a new start
    of 15 the segment quoted is the one starting at 20. *)
Theorem regenerate_single_chapter_spec
        (transcript_lines : list TranscriptLine.t) (new_start_sec : Z)
        (existing_title : str) (existing_summary : option str) :
  let c := regenerate_single_chapter transcript_lines new_start_sec
                                     existing_title existing_summary in
  let quote text := PStr (lit "Auto-updated using nearby transcript: " ++ text) in
  (ChapterData.start_sec c = new_start_sec
   /\ ChapterData.source c = lit "ai_edit"
   /\ ChapterData.confidence c = Some 0.6%float
   /\ ChapterData.end_sec c = None
   /\ ChapterData.order c = PNone
   /\ ChapterData.title c = PStr (lit "Adjusted Chapter @ " ++ _format_seconds new_start_sec))
  /\ (forall before line after,
        transcript_lines = before ++ line :: after ->
        Forall (fun l => TranscriptLine.start_sec l < new_start_sec) before ->
        new_start_sec <= TranscriptLine.start_sec line ->
        ChapterData.summary c = quote (firstn 120 (TranscriptLine.text line))
        /\ (length (firstn 120 (TranscriptLine.text line)) <= 120)%nat)
  /\ (Forall (fun l => TranscriptLine.start_sec l < new_start_sec) transcript_lines ->
      ChapterData.summary c = quote (lit "No nearby transcript context."))
  /\ (forall e0 e1 e2 t0 t1 t2 title summary,
        ChapterData.summary
          (regenerate_single_chapter
             [TranscriptLine.mk 0 e0 t0; TranscriptLine.mk 10 e1 t1; TranscriptLine.mk 20 e2 t2]
             15 title summary)
        = quote (firstn 120 t2)).
Proof.
  cbv zeta. split; [repeat split|]. split; [|split].
  - intros before line after -> Hb Hl. split; [|apply firstn_le_length].
    unfold regenerate_single_chapter; cbn [ChapterData.summary].
    induction Hb as [|b before Hb _ IH]; cbn [List.app find].
    + destruct (Z.leb_spec new_start_sec (TranscriptLine.start_sec line)); [reflexivity|lia].
    + destruct (Z.leb_spec new_start_sec (TranscriptLine.start_sec b)); [lia|exact IH].
  - intros Hall. unfold regenerate_single_chapter; cbn [ChapterData.summary].
    induction Hall as [|b ls Hb _ IH]; cbn [find]; [reflexivity|].
    destruct (Z.leb_spec new_start_sec (TranscriptLine.start_sec b)); [lia|exact IH].
  - reflexivity.
Qed.

(** C10. The regenerated chapter does not depend on the title and the
    summary the chapter had. *)
Theorem regenerate_single_chapter_ignores_existing
        (transcript_lines : list TranscriptLine.t) (new_start_sec : Z)
        (title1 title2 : str) (summary1 summary2 : option str) :
  regenerate_single_chapter transcript_lines new_start_sec title1 summary1
  = regenerate_single_chapter transcript_lines new_start_sec title2 summary2.
Proof. reflexivity. Qed.

(** ** The Fallback Generator *)

Lemma range_length (n : Z) : length (range n) = Z.to_nat n.
Proof. unfold range. now rewrite length_map, length_seq. Qed.

Lemma nth_error_range (n i : Z) :
  0 <= i < n -> nth_error (range n) (Z.to_nat i) = Some i.
Proof.
  intros H. unfold range.
  rewrite nth_error_map, nth_error_seq.
  destruct (Nat.ltb_spec (Z.to_nat i) (Z.to_nat n)) as [_|L]; [|lia].
  cbn. f_equal. lia.
Qed.

Lemma In_range (n i : Z) : In i (range n) <-> 0 <= i < n.
Proof.
  unfold range. rewrite in_map_iff. split.
  - intros (k & <- & Hk). apply in_seq in Hk. lia.
  - intros H. exists (Z.to_nat i). split; [lia|]. apply in_seq. lia.
Qed.

(** The duration is the last line's end-or-start for a line of the data
    model that does not start before zero. *)
Lemma duration_of_end_value (l : TranscriptLine.t) :
  Spec.well_formed l -> 0 <= TranscriptLine.start_sec l -> duration_of l = end_value l.
Proof.
  unfold Spec.well_formed, duration_of, end_value, int_or.
  destruct (TranscriptLine.end_sec l) as [e|]; [|lia].
  destruct (Z.eqb_spec e 0); lia.
Qed.

(** C3, as the code has it.  For a non-empty segment list and
    [max_chapters >= 1] the fallback returns [min(max_chapters, 10)]
    chapters; chapter [i] spans [[i*step, min((i+1)*step, duration)]] with
    confidence 0.5, source ["auto_stub"] and order [i+1], for
    [step = max(duration // chapter_count, 1)].  The duration is taken
    from a segment that no segment starts after, and is its end-or-start
    when that segment is one of the data model.  When the duration is at
    least the chapter count, the spans are contiguous, none is empty, and
    together they cover [[0, chapter_count*step]], which falls short of
    the duration by [duration mod chapter_count] seconds. *)
Theorem fallback_stub_equal_split
        (l0 : TranscriptLine.t) (ls : list TranscriptLine.t) (max_chapters : Z) :
  1 <= max_chapters ->
  let lst := last (sorted_by_start (l0 :: ls)) l0 in
  let duration := duration_of lst in
  let chapter_count := Z.min max_chapters 10 in
  let step := Z.max (duration / chapter_count) 1 in
  Spec.last_by_start (l0 :: ls) lst
  /\ (Spec.well_formed lst -> 0 <= TranscriptLine.start_sec lst -> duration = end_value lst)
  /\ Spec.equal_split duration chapter_count step
                      (_fallback_stub (l0 :: ls) (Some max_chapters)).
Proof.
  intros Hmax lst duration chapter_count step.
  split; [apply last_sorted_by_start|].
  split; [apply duration_of_end_value|].
  unfold _fallback_stub.
  replace (int_or (Some max_chapters) 10) with max_chapters
    by (unfold int_or; destruct (Z.eqb_spec max_chapters 0); lia).
  fold lst. fold duration. fold chapter_count. fold step.
  assert (Hc : 1 <= chapter_count) by (unfold chapter_count; lia).
  set (mk := fun idx : Z => ChapterData.mk _ _ _ _ _ _ _ _).
  assert (Nth : forall i, 0 <= i < chapter_count ->
                  nth_error (map mk (range chapter_count)) (Z.to_nat i) = Some (mk i)).
  { intros i Hi. rewrite nth_error_map, nth_error_range by exact Hi. reflexivity. }
  unfold Spec.equal_split. split; [now rewrite length_map, range_length|].
  split.
  { intros i Hi. exists (mk i). split; [apply Nth, Hi|]. repeat split. }
  intros Hd.
  assert (Hstep : step = duration / chapter_count).
  { unfold step. assert (1 <= duration / chapter_count); [|lia].
    apply Z.div_le_lower_bound; lia. }
  assert (Hmul : chapter_count * step <= duration)
    by (rewrite Hstep; apply Z.mul_div_le; lia).
  assert (Hs1 : 1 <= step) by (unfold step; lia).
  split; [|split; [|split; [|split]]].
  - intros i a b Ha Hb.
    assert (Hlen : (S i < Z.to_nat chapter_count)%nat).
    { rewrite <- (range_length chapter_count), <- (length_map mk).
      apply nth_error_Some. congruence. }
    rewrite <- (Nat2Z.id i), Nth in Ha by lia.
    rewrite <- (Nat2Z.id (S i)), Nth in Hb by lia.
    injection Ha as <-. injection Hb as <-.
    unfold mk; cbn [ChapterData.end_sec ChapterData.start_sec]. f_equal.
    assert (Z.of_nat (S i) * step <= chapter_count * step) by nia.
    replace (Z.of_nat i + 1) with (Z.of_nat (S i)) by lia. lia.
  - rewrite Forall_forall. intros c Hc'. apply in_map_iff in Hc'.
    destruct Hc' as (i & <- & Hi). apply In_range in Hi.
    eexists; split; [reflexivity|].
    unfold mk; cbn [ChapterData.end_sec ChapterData.start_sec].
    assert ((i + 1) * step <= chapter_count * step) by nia. nia.
  - exists (mk 0). split; [apply (Nth 0); lia | reflexivity].
  - exists (mk (chapter_count - 1)). split; [apply Nth; lia|].
    unfold mk; cbn [ChapterData.end_sec]. f_equal.
    replace (chapter_count - 1 + 1) with chapter_count by lia. lia.
  - rewrite Hstep. pose proof (Z.div_mod duration chapter_count). lia.
Qed.

(** Scenario A: two ten-second segments and ten chapters asked give ten
    chapters of two seconds. *)
Lemma fallback_stub_scenario_A :
  Spec.equal_split 20 10 2
    (_fallback_stub [TranscriptLine.mk 0 (Some 10) (lit "hi");
                     TranscriptLine.mk 10 (Some 20) (lit "bye")] (Some 10)).
Proof.
  refine (proj2 (proj2 (@fallback_stub_equal_split
                          (TranscriptLine.mk 0 (Some 10) (lit "hi"))
                          [TranscriptLine.mk 10 (Some 20) (lit "bye")] 10 _))).
  lia.
Defined.

(** C3 fails as stated.  One segment from 0 to 25 and ten chapters asked:
    the step is 2 and the last chapter ends at 20, so the seconds from 20
    to 25 are in no chapter.  One segment from 0 to 5: the step is 1 and
    the seventh chapter runs from 6 back to 5, and does not start where
    the sixth ends. *)
Lemma fallback_stub_does_not_cover :
  (let out := _fallback_stub [TranscriptLine.mk 0 (Some 25) (lit "a")] (Some 10) in
   length out = 10%nat
   /\ duration_of (TranscriptLine.mk 0 (Some 25) (lit "a")) = 25
   /\ Forall (fun c => exists e, ChapterData.end_sec c = Some e /\ e <= 20) out)
  /\ (let out := _fallback_stub [TranscriptLine.mk 0 (Some 5) (lit "a")] (Some 10) in
      exists a b,
        nth_error out 5 = Some a /\ nth_error out 6 = Some b
        /\ ChapterData.end_sec a = Some 5
        /\ ChapterData.start_sec b = 6
        /\ ChapterData.end_sec b = Some 5).
Proof.
  split.
  - cbv zeta. split; [reflexivity|]. split; [reflexivity|].
    repeat (constructor; [eexists; split; [reflexivity | cbn; lia]|]). constructor.
  - cbv zeta. eexists _, _. repeat (split; [reflexivity|]). reflexivity.
Qed.

(** ** The Transcript Parser *)

(** [In x r] to [In x (... ++ c :: ... ++ r)]. *)
Ltac in_tail H := repeat first [exact H | apply in_or_app; right | right].

Section ParserProofs.
Variable rt : Runtime.

Lemma to_decimal_digit (c : char) (d : N) :
  to_decimal rt c = Some d ->
  (d < 10)%N /\ isspace c = false /\ int_ascii rt c = (48 + d)%N.
Proof.
  unfold int_ascii. unfold to_decimal at 1.
  destruct (N.ltb_spec c 128) as [A|A].
  - destruct (N.leb_spec 48 c) as [L|L]; cbn [andb]; [|discriminate].
    destruct (N.leb_spec c 57) as [U|U]; [|discriminate].
    intros [= <-]. split; [lia|]. split; [|lia].
    assert (E : In c [48; 49; 50; 51; 52; 53; 54; 55; 56; 57]%N) by (cbn; lia).
    cbn in E. repeat (destruct E as [<-|E]; [reflexivity|]). destruct E.
  - destruct (isspace c) eqn:S; [discriminate|].
    unfold to_decimal. destruct (N.ltb_spec c 128); [lia|]. rewrite S.
    destruct (unicode_decimal rt c) as [d'|]; [|discriminate].
    destruct (N.ltb_spec d' 10); [|discriminate]. intros [= <-]. auto.
Qed.

Lemma int_two_digits (a b : char) (da db : N) :
  to_decimal rt a = Some da -> to_decimal rt b = Some db ->
  int rt [a; b] = Ok (Z.of_N (10 * da + db)).
Proof.
  intros Ha Hb.
  destruct (to_decimal_digit _ Ha) as (La & _ & Ea).
  destruct (to_decimal_digit _ Hb) as (Lb & _ & Eb).
  unfold int. cbn [map]. rewrite Ea, Eb.
  assert (A : In da [0; 1; 2; 3; 4; 5; 6; 7; 8; 9]%N) by (cbn; lia).
  assert (B : In db [0; 1; 2; 3; 4; 5; 6; 7; 8; 9]%N) by (cbn; lia).
  cbn in A, B.
  repeat (destruct A as [<-|A]; [repeat (destruct B as [<-|B]; [reflexivity|]); destruct B|]).
  destruct A.
Qed.

Lemma isdecimal_true (c : char) :
  isdecimal rt c = true <-> exists d, to_decimal rt c = Some d.
Proof.
  unfold isdecimal. destruct (to_decimal rt c) as [d|]; split; try discriminate; eauto.
  intros [d [=]].
Qed.

Lemma expect_Some (c : char) (s r : str) : Parser.expect c s = Some r <-> s = c :: r.
Proof.
  unfold Parser.expect. destruct s as [|x s]; [split; discriminate|].
  destruct (N.eqb_spec x c) as [->|N]; split; intros H; inversion H; subst;
    reflexivity || (exfalso; now apply N).
Qed.

Lemma expect_same (c : char) (r : str) : Parser.expect c (c :: r) = Some r.
Proof. now apply expect_Some. Qed.

Lemma lstrip_blank_app (w x : str) :
  Spec.blank w -> lstrip x = x -> lstrip (w ++ x) = x.
Proof.
  induction 1 as [|c w Hc _ IH]; intros Hx; cbn; [exact Hx|].
  rewrite Hc. exact (IH Hx).
Qed.

Lemma lstrip_cons_id (c : char) (x : str) : isspace c = false -> lstrip (c :: x) = c :: x.
Proof. intros H; cbn; now rewrite H. Qed.

Lemma lstrip_split (s : str) : exists w, Spec.blank w /\ s = w ++ lstrip s.
Proof.
  induction s as [|c s (w & Hw & E)]; cbn.
  - exists []. split; [constructor | reflexivity].
  - destruct (isspace c) eqn:S.
    + exists (c :: w). split; [constructor; assumption | cbn; now f_equal].
    + exists []. split; [constructor | reflexivity].
Qed.

Lemma lstrip_idem (s : str) : lstrip (lstrip s) = lstrip s.
Proof.
  induction s as [|c s IH]; cbn; [reflexivity|].
  destruct (isspace c) eqn:S; [exact IH | cbn; now rewrite S].
Qed.

Lemma strip_lstrip (s : str) : strip (lstrip s) = strip s.
Proof. unfold strip. now rewrite lstrip_idem. Qed.

Lemma In_lstrip (c : char) (s : str) : In c (lstrip s) -> In c s.
Proof.
  induction s as [|x s IH]; cbn; [tauto|].
  destruct (isspace x); cbn; tauto.
Qed.

Lemma In_strip (c : char) (s : str) : In c (strip s) -> In c s.
Proof.
  unfold strip, rstrip. intros H. apply In_lstrip.
  apply in_rev in H. apply In_lstrip in H. now apply in_rev in H.
Qed.

Lemma dot_star_end_id (s : str) : ~ In 10%N s -> Parser.dot_star_end s = Some s.
Proof.
  induction s as [|c s IH]; cbn; [reflexivity|]. intros H.
  destruct (N.eqb_spec c 10) as [->|_]; [tauto|].
  rewrite IH by tauto. reflexivity.
Qed.

(** The matcher's reading of a timestamp is the specification's. *)
Lemma hms_groups_sound (s h m sec r : str) :
  Parser.hms_groups rt s = Some (h, m, sec, r) ->
  exists t v, s = t ++ r /\ Spec.hms rt t v /\ Parser.hms_to_seconds rt h m sec = Ok v.
Proof.
  unfold Parser.hms_groups, Parser.two_digits, Parser.obind.
  destruct s as [|a1 [|b1 s]]; try discriminate.
  destruct (isdecimal rt a1) eqn:A1; [|discriminate].
  destruct (isdecimal rt b1) eqn:B1; [|discriminate]. cbn [andb].
  destruct (Parser.expect 58 s) as [s1|] eqn:E1; [|discriminate].
  apply expect_Some in E1; subst s.
  destruct s1 as [|a2 [|b2 s]]; try discriminate.
  destruct (isdecimal rt a2) eqn:A2; [|discriminate].
  destruct (isdecimal rt b2) eqn:B2; [|discriminate]. cbn [andb].
  destruct (Parser.expect 58 s) as [s1|] eqn:E2; [|discriminate].
  apply expect_Some in E2; subst s.
  destruct s1 as [|a3 [|b3 s]]; try discriminate.
  destruct (isdecimal rt a3) eqn:A3; [|discriminate].
  destruct (isdecimal rt b3) eqn:B3; [|discriminate]. cbn [andb].
  intros [= <- <- <- <-].
  apply isdecimal_true in A1, B1, A2, B2, A3, B3.
  destruct A1 as [x1 A1], B1 as [y1 B1], A2 as [x2 A2], B2 as [y2 B2],
           A3 as [x3 A3], B3 as [y3 B3].
  exists ([a1; b1] ++ lit ":" ++ [a2; b2] ++ lit ":" ++ [a3; b3]).
  exists (Z.of_N (10 * x1 + y1) * 3600 + Z.of_N (10 * x2 + y2) * 60 + Z.of_N (10 * x3 + y3)).
  split; [reflexivity|]. split.
  - exists [a1; b1], [a2; b2], [a3; b3]. do 3 eexists.
    split; [reflexivity|].
    split; [exists a1, b1, x1, y1; auto|].
    split; [exists a2, b2, x2, y2; auto|].
    split; [exists a3, b3, x3, y3; auto|]. reflexivity.
  - unfold Parser.hms_to_seconds.
    rewrite (int_two_digits _ _ A1 B1), (int_two_digits _ _ A2 B2), (int_two_digits _ _ A3 B3).
    reflexivity.
Qed.

(** A timestamp of the specification is read by the matcher, whatever
    follows it. *)
Lemma hms_groups_complete (t r : str) (v : Z) :
  Spec.hms rt t v ->
  exists h m sec,
    Parser.hms_groups rt (t ++ r) = Some (h, m, sec, r)
    /\ Parser.hms_to_seconds rt h m sec = Ok v
    /\ lstrip (t ++ r) = t ++ r.
Proof.
  intros (h & m & sec & H & M & S & -> & Hh & Hm & Hs & ->).
  destruct Hh as (a1 & b1 & x1 & y1 & -> & A1 & B1 & ->).
  destruct Hm as (a2 & b2 & x2 & y2 & -> & A2 & B2 & ->).
  destruct Hs as (a3 & b3 & x3 & y3 & -> & A3 & B3 & ->).
  exists [a1; b1], [a2; b2], [a3; b3].
  split; [|split].
  - unfold Parser.hms_groups, Parser.two_digits, Parser.obind. cbn [List.app lit map list_ascii_of_string].
    unfold isdecimal. rewrite A1, B1. cbn. rewrite A2, B2. cbn. rewrite A3, B3. reflexivity.
  - unfold Parser.hms_to_seconds.
    rewrite (int_two_digits _ _ A1 B1), (int_two_digits _ _ A2 B2), (int_two_digits _ _ A3 B3).
    reflexivity.
  - apply lstrip_cons_id. now destruct (to_decimal_digit _ A1) as (_ & ? & _).
Qed.

(** The matcher accepts a line exactly when it has the specified form,
    and then reads the two times and the text as specified. *)
Lemma TRANSCRIPT_PATTERN_match_sound (line g1 g2 g3 g4 g5 g6 g7 : str) :
  ~ In 10%N line ->
  Parser.TRANSCRIPT_PATTERN_match rt line = Some (g1, g2, g3, g4, g5, g6, g7) ->
  exists s e r,
    Spec.timestamped rt line s e r
    /\ Parser.hms_to_seconds rt g1 g2 g3 = Ok s
    /\ Parser.hms_to_seconds rt g4 g5 g6 = Ok e
    /\ strip g7 = strip r.
Proof.
  intros NL. unfold Parser.TRANSCRIPT_PATTERN_match, Parser.obind.
  destruct (Parser.expect 91 line) as [s1|] eqn:E0; [|discriminate].
  apply expect_Some in E0.
  destruct (Parser.hms_groups rt s1) as [[[[h1 m1] c1] s2]|] eqn:G1; [|discriminate].
  destruct (Parser.expect 45 (lstrip s2)) as [s3|] eqn:E1; [|discriminate].
  destruct (Parser.expect 45 s3) as [s4|] eqn:E2; [|discriminate].
  destruct (Parser.expect 62 s4) as [s5|] eqn:E3; [|discriminate].
  destruct (Parser.hms_groups rt (lstrip s5)) as [[[[h2 m2] c2] s6]|] eqn:G2; [|discriminate].
  destruct (Parser.expect 93 s6) as [s7|] eqn:E4; [|discriminate].
  destruct (Parser.dot_star_end (lstrip s7)) as [g|] eqn:D; [|discriminate].
  intros [= <- <- <- <- <- <- <-].
  apply expect_Some in E1, E2, E3, E4. subst s3 s4 s6.
  destruct (hms_groups_sound _ G1) as (t1 & v1 & -> & H1 & S1).
  destruct (hms_groups_sound _ G2) as (t2 & v2 & E5 & H2 & S2).
  destruct (lstrip_split s2) as (w1 & W1 & Es2).
  destruct (lstrip_split s5) as (w2 & W2 & Es5).
  assert (L : line = lit "[" ++ t1 ++ w1 ++ lit "-->" ++ w2 ++ t2 ++ lit "]" ++ s7).
  { rewrite E0, Es2, E1, Es5, E5. reflexivity. }
  exists v1, v2, s7. split; [exists t1, w1, w2, t2; auto|].
  split; [exact S1|]. split; [exact S2|].
  assert (N7 : ~ In 10%N (lstrip s7)).
  { intros I. apply NL. rewrite L. apply In_lstrip in I.
    in_tail I. }
  rewrite (dot_star_end_id _ N7) in D. injection D as <-. apply strip_lstrip.
Qed.

Lemma TRANSCRIPT_PATTERN_match_complete (line : str) (s e : Z) (r : str) :
  ~ In 10%N line ->
  Spec.timestamped rt line s e r ->
  exists g1 g2 g3 g4 g5 g6,
    Parser.TRANSCRIPT_PATTERN_match rt line = Some (g1, g2, g3, g4, g5, g6, lstrip r)
    /\ Parser.hms_to_seconds rt g1 g2 g3 = Ok s
    /\ Parser.hms_to_seconds rt g4 g5 g6 = Ok e.
Proof.
  intros NL (t1 & w1 & w2 & t2 & L & H1 & W1 & W2 & H2).
  destruct (hms_groups_complete (w1 ++ lit "-->" ++ w2 ++ t2 ++ lit "]" ++ r) H1)
    as (g1 & g2 & g3 & G1 & S1 & _).
  destruct (hms_groups_complete (lit "]" ++ r) H2) as (g4 & g5 & g6 & G2 & S2 & K2).
  exists g1, g2, g3, g4, g5, g6. split; [|split; assumption].
  assert (N7 : ~ In 10%N (lstrip r)).
  { intros I. apply NL. rewrite L. apply In_lstrip in I.
    in_tail I. }
  rewrite L. clear L NL.
  set (tail2 := w2 ++ t2 ++ lit "]" ++ r) in *.
  set (tail1 := w1 ++ lit "-->" ++ tail2) in *.
  unfold Parser.TRANSCRIPT_PATTERN_match, Parser.obind.
  change (lit "[" ++ t1 ++ tail1) with (91%N :: t1 ++ tail1).
  rewrite expect_same, G1.
  unfold tail1. rewrite (lstrip_blank_app (x := lit "-->" ++ tail2) W1 eq_refl).
  change (lit "-->" ++ tail2) with (45%N :: 45%N :: 62%N :: tail2).
  rewrite !expect_same.
  unfold tail2. rewrite (lstrip_blank_app W2 K2), G2.
  change (lit "]" ++ r) with (93%N :: r).
  rewrite expect_same, (dot_star_end_id _ N7). reflexivity.
Qed.


Lemma timestamped_head (line : str) (s e : Z) (r : str) :
  Spec.timestamped rt line s e r -> exists tl, line = 91%N :: tl.
Proof. intros (t1 & w1 & w2 & t2 & -> & _). eexists; reflexivity. Qed.

(** The trimmed lines the loop passes over before it tries the pattern
    are not of the specified form. *)
Lemma skipped_not_timestamped (line : str) (s e : Z) (r : str) :
  line = [] \/ startswith line (lit "#") = true
  \/ startswith line Parser.generated_at = true ->
  ~ Spec.timestamped rt line s e r.
Proof.
  intros H T. apply timestamped_head in T. destruct T as [tl ->].
  destruct H as [H|[H|H]]; discriminate.
Qed.

Lemma parse_lines_emits (raws : list str) :
  Forall (fun l => ~ In 10%N l) raws ->
  exists out, Parser.parse_lines rt raws = Ok out /\ Spec.emits rt raws out.
Proof.
  induction 1 as [|raw raws NL _ (out & P & E)]; [exists []; split; constructor|].
  assert (NL' : ~ In 10%N (strip raw)) by (intros I; apply NL, In_strip, I).
  cbn [Parser.parse_lines]. cbv zeta.
  destruct (strip raw) as [|c line] eqn:L.
  { exists out. split; [exact P|]. apply Spec.emits_skip; [|exact E].
    intros s e r. rewrite L. apply skipped_not_timestamped. now left. }
  destruct (startswith (c :: line) (lit "#") || startswith (c :: line) Parser.generated_at)
    eqn:S.
  { exists out. split; [exact P|]. apply Spec.emits_skip; [|exact E].
    intros s e r. rewrite L. apply skipped_not_timestamped. right.
    apply orb_true_iff in S. exact S. }
  destruct (Parser.TRANSCRIPT_PATTERN_match rt (c :: line))
    as [[[[[[[g1 g2] g3] g4] g5] g6] g7]|] eqn:Mt.
  - edestruct TRANSCRIPT_PATTERN_match_sound as (s & e & r & T & S1 & S2 & St);
      [exact NL' | exact Mt |].
    rewrite S1, S2, P. cbn [rbind]. eexists; split; [reflexivity|].
    rewrite St. apply Spec.emits_line; [rewrite L; exact T | exact E].
  - exists out. split; [exact P|]. apply Spec.emits_skip; [|exact E].
    intros s e r T. rewrite L in T.
    edestruct TRANSCRIPT_PATTERN_match_complete as (? & ? & ? & ? & ? & ? & Mt' & _);
      [exact NL' | exact T |].
    congruence.
Qed.

Lemma emits_no_match (raws : list str) (out : list (Z * option Z * str)) :
  Spec.emits rt raws out ->
  (forall raw, In raw raws -> forall s e r, ~ Spec.timestamped rt (strip raw) s e r) ->
  out = [].
Proof.
  induction 1 as [|raw raws out N _ IH|raw raws out s e r T _ _]; intros H.
  - reflexivity.
  - apply IH. intros raw' I. apply H. now right.
  - exfalso. exact (H raw (or_introl eq_refl) s e r T).
Qed.

End ParserProofs.

(** A line boundary closes the current line; after a carriage return a
    line feed belongs to the same boundary. *)
Lemma splitlines_from_break (cur : str) (c : char) (r : str) :
  is_linebreak c = true ->
  splitlines_from cur (c :: r)
  = rev cur :: splitlines_from []
                 (match r with
                  | c' :: r' => if ((c =? 13) && (c' =? 10))%N then r' else r
                  | [] => r
                  end).
Proof.
  intros B. cbn [splitlines_from]. rewrite B.
  destruct c as [|p]; [now destruct r|].
  destruct r as [|c' r'].
  - repeat (destruct p as [p|p|]; try reflexivity).
  - repeat (destruct p as [p|p|]; try reflexivity).
    destruct c' as [|q]; [reflexivity|].
    repeat (destruct q as [q|q|]; try reflexivity).
Qed.

Lemma splitlines_from_no_linebreak (n : nat) :
  forall (s cur : str),
    (length s <= n)%nat ->
    Forall (fun c => is_linebreak c = false) cur ->
    Forall (Forall (fun c => is_linebreak c = false)) (splitlines_from cur s).
Proof.
  induction n as [|n IH]; intros s cur Hn Hc.
  - destruct s; [|cbn in Hn; lia]. cbn. destruct cur; constructor; [|constructor].
    apply Forall_rev with (l := c :: cur). exact Hc.
  - destruct s as [|c r].
    + cbn. destruct cur; constructor; [|constructor].
      apply Forall_rev with (l := c :: cur). exact Hc.
    + cbn in Hn. destruct (is_linebreak c) eqn:B.
      * rewrite splitlines_from_break by exact B.
        constructor; [now apply Forall_rev|].
        apply IH; [|constructor].
        destruct r as [|c' r']; [cbn; lia|].
        destruct ((c =? 13) && (c' =? 10))%N; cbn in *; lia.
      * cbn [splitlines_from]. rewrite B. apply IH; [lia | constructor; assumption].
Qed.

Lemma splitlines_no_newline (content : str) :
  Forall (fun l => ~ In 10%N l) (splitlines content).
Proof.
  pose proof (@splitlines_from_no_linebreak (length content) content [] (le_n _)
                (Forall_nil _)) as H.
  unfold splitlines. induction H as [|l ls Hl _ IH]; constructor; [|exact IH].
  rewrite Forall_forall in Hl. intros I. now specialize (Hl _ I).
Qed.

(** C5. The Transcript Parser never raises.  Line by line, in the order
    of the input, it emits a tuple for exactly the lines that, trimmed,
    have the form [[HH:MM:SS --> HH:MM:SS] <text>] with two-digit groups:
    the start and end as [H*3600 + M*60 + S] seconds and the text
    trimmed.  Blank lines, lines starting with [#] and lines starting
    with the generated-at marker are not of that form; an input none of
    whose lines is yields the empty list. *)
Theorem parse_transcript_txt_emits (rt : Runtime) (content : str) :
  exists out,
    Parser.parse_transcript_txt rt content = Ok out
    /\ Spec.emits rt (splitlines content) out
    /\ (forall line s e r,
          line = [] \/ startswith line (lit "#") = true
          \/ startswith line Parser.generated_at = true ->
          ~ Spec.timestamped rt line s e r)
    /\ ((forall raw, In raw (splitlines content) ->
           forall s e r, ~ Spec.timestamped rt (strip raw) s e r) ->
        out = []).
Proof.
  destruct (parse_lines_emits rt (splitlines_no_newline content)) as (out & P & E).
  exists out. split; [exact P|]. split; [exact E|]. split.
  - intros line s e r. apply skipped_not_timestamped.
  - apply emits_no_match with (1 := E).
Qed.

(** ** The Response Parser *)

Section Writes.
Context {A B : Type}.

Lemma writes_ret (a : A) : Spec.writes (ret a) (Ok a) [].
Proof. intros lg. unfold ret. now rewrite app_nil_r. Qed.

Lemma writes_raise (e : exn) : Spec.writes (@raise A e) (Raise e) [].
Proof. intros lg. unfold raise. now rewrite app_nil_r. Qed.

Lemma writes_lift (r : result A) : Spec.writes (lift r) r [].
Proof. intros lg. unfold lift. now rewrite app_nil_r. Qed.

Lemma writes_bind_ok (m : M A) (k : A -> M B) (a : A) (r : result B) (w1 w2 : log) :
  Spec.writes m (Ok a) w1 -> Spec.writes (k a) r w2 -> Spec.writes (bind m k) r (w1 ++ w2).
Proof. intros H1 H2 lg. unfold bind. now rewrite H1, H2, app_assoc. Qed.

Lemma writes_bind_raise (m : M A) (k : A -> M B) (e : exn) (w : log) :
  Spec.writes m (Raise e) w -> Spec.writes (bind m k) (Raise e) w.
Proof. intros H lg. unfold bind. now rewrite H. Qed.

Lemma writes_bind_lift (x : result A) (k : A -> M B) :
  (forall a, x = Ok a -> exists r w, Spec.writes (k a) r w) ->
  exists r w, Spec.writes (bind (lift x) k) r w.
Proof.
  destruct x as [a|e]; intros H.
  - destruct (H a eq_refl) as (r & w & W). exists r, ([] ++ w).
    eapply writes_bind_ok; [apply writes_lift | exact W].
  - exists (Raise e), []. apply writes_bind_raise, writes_lift.
Qed.

End Writes.

Lemma writes_log (r : log_record) : Spec.writes (logging_error r) (Ok tt) [r].
Proof. intros lg. reflexivity. Qed.

Lemma writes_fst {A} (m : M A) (r : result A) (w : log) :
  Spec.writes m r w -> forall lg, fst (m lg) = r.
Proof. intros H lg. now rewrite H. Qed.

Section ResponseParserProofs.
Variable rt : Runtime.

(** The loop appends the rows that convert, in order, and logs the
    others. *)
Lemma parse_chapter_rows_writes (rows : list pyval) :
  forall (idx : Z) (chapters : list ChapterData.t),
    Spec.writes (parse_chapter_rows rt idx rows chapters)
                (Ok (chapters ++ Spec.converted rt idx rows))
                (Spec.row_failures rt idx rows).
Proof.
  induction rows as [|ch rows IH]; intros idx chapters; cbn [parse_chapter_rows Spec.converted Spec.row_failures].
  - rewrite app_nil_r. apply writes_ret.
  - destruct (parse_chapter_row rt idx ch) as [c|exc].
    + specialize (IH (idx + 1) (chapters ++ [c])).
      rewrite <- app_assoc in IH. exact IH.
    + change (LogRowFailed exc :: Spec.row_failures rt (idx + 1) rows)
        with ([LogRowFailed exc] ++ Spec.row_failures rt (idx + 1) rows).
      eapply writes_bind_ok; [apply writes_log | apply IH].
Qed.

Lemma converted_app (before after : list pyval) :
  forall idx,
    Spec.converted rt idx (before ++ after)
    = Spec.converted rt idx before
      ++ Spec.converted rt (idx + Z.of_nat (length before)) after.
Proof.
  induction before as [|ch before IH]; intros idx; cbn [List.app Spec.converted length].
  - now rewrite Z.add_0_r.
  - rewrite IH. replace (idx + 1 + Z.of_nat (length before))
      with (idx + Z.of_nat (S (length before))) by lia.
    now destruct (parse_chapter_row rt idx ch).
Qed.

Variable env : Env.

Lemma _parse_llm_response_writes (data : pyval) :
  exists r w, Spec.writes (_parse_llm_response rt env data) r w.
Proof.
  unfold _parse_llm_response.
  destruct (negb (truthy data)); [eexists _, _; apply writes_ret|].
  apply writes_bind_lift; intros has_choices _.
  destruct (negb has_choices); [eexists _, _; apply writes_ret|].
  apply writes_bind_lift; intros choices _.
  destruct (negb (truthy choices)); [eexists _, _; apply writes_ret|].
  apply writes_bind_lift; intros choice _.
  apply writes_bind_lift; intros message _.
  apply writes_bind_lift; intros content _.
  destruct (match content with PStr s => json_loads env s | _ => Raise TypeError end)
    as [parsed|e].
  - apply writes_bind_lift; intros chapters_raw _.
    apply writes_bind_lift; intros rows _.
    eexists _, _. apply parse_chapter_rows_writes.
  - assert (D : exists r w, Spec.writes (@raise (list ChapterData.t) e) r w)
      by (eexists _, _; apply writes_raise).
    destruct e; try exact D.
    eexists _, _. eapply writes_bind_ok; [apply writes_log | apply writes_ret].
Qed.

End ResponseParserProofs.

(** C8. The Response Parser is a function of the raw response: what it
    returns does not depend on the log it writes to, so two calls on the
    same response, the second after the first, return the same
    candidates, or raise the same exception. *)
Theorem _parse_llm_response_deterministic
        (rt : Runtime) (env : Env) (data : pyval) (lg1 lg2 : log) :
  fst (_parse_llm_response rt env data lg1) = fst (_parse_llm_response rt env data lg2)
  /\ fst (_parse_llm_response rt env data (snd (_parse_llm_response rt env data lg1)))
     = fst (_parse_llm_response rt env data lg1).
Proof.
  destruct (_parse_llm_response_writes rt env data) as (r & w & W).
  rewrite !(writes_fst W). split; reflexivity.
Qed.

(** C4: where the code lets an exception out.  A first choice whose
    content is [null] raises [TypeError] in [json.loads]; a first choice
    with no message raises [KeyError]; content that decodes to an object
    whose [chapters] is [null] raises [TypeError] in the loop header; and
    [generate_chapters_from_transcript] passes the exception on to its
    caller. *)
Theorem _parse_llm_response_raises (rt : Runtime) (env : Env) (lg : log) :
  _parse_llm_response rt env (completion PNone) lg = (Raise TypeError, lg)
  /\ _parse_llm_response rt env (PDict [(lit "choices", PList [PDict []])]) lg
     = (Raise KeyError, lg)
  /\ (forall key response content,
        _parse_llm_response rt (env_answering key response (PDict [(lit "chapters", PNone)]))
                            (completion (PStr content)) lg
        = (Raise TypeError, lg))
  /\ (forall l0 ls max_chapters,
        generate_chapters_from_transcript
          rt (env_answering (Some (lit "key")) (completion PNone) PNone)
          (l0 :: ls) max_chapters lg
        = (Raise TypeError, lg)).
Proof.
  repeat split; intros; reflexivity.
Qed.


Lemma default_timestamp (rt : Runtime) : _hms_to_seconds rt (PStr (lit "00:00:00")) = Ok 0.
Proof. reflexivity. Qed.

(** C9, as the code has it.  A row that is an object with no ["start"] or
    no ["end"] gets ["00:00:00"] for the missing field.  When its
    timestamps, the defaults among them, convert, the row is not skipped:
    its candidate stands in the output between those of the rows before
    and after it, with [start_sec = 0] for a missing start and
    [end_sec = 0] for a missing end. *)
Theorem parse_chapter_row_defaults
        (rt : Runtime) (d : list (str * pyval)) (before after : list pyval)
        (first : Z) (s e : Z) :
  lookup (lit "start") d = None \/ lookup (lit "end") d = None ->
  _hms_to_seconds rt (Spec.timestamp_of d "start") = Ok s ->
  _hms_to_seconds rt (Spec.timestamp_of d "end") = Ok e ->
  let idx := first + Z.of_nat (length before) in
  exists c,
    parse_chapter_row rt idx (PDict d) = Ok c
    /\ ChapterData.start_sec c = s /\ ChapterData.end_sec c = Some e
    /\ (lookup (lit "start") d = None -> s = 0)
    /\ (lookup (lit "end") d = None -> e = 0)
    /\ (forall lg,
          fst (parse_chapter_rows rt first (before ++ PDict d :: after) [] lg)
          = Ok (Spec.converted rt first before ++ c :: Spec.converted rt (idx + 1) after)).
Proof.
  intros _ Hs He idx.
  assert (R : exists c, parse_chapter_row rt idx (PDict d) = Ok c
                        /\ ChapterData.start_sec c = s /\ ChapterData.end_sec c = Some e).
  { unfold parse_chapter_row, py_get. unfold Spec.timestamp_of in Hs, He.
    cbn [rbind]. rewrite Hs. cbn [rbind]. rewrite He. cbn [rbind].
    destruct (truthy _); cbn [rbind]; eexists; repeat split. }
  destruct R as (c & R & Cs & Ce). exists c.
  split; [exact R|]. split; [exact Cs|]. split; [exact Ce|].
  split; [|split].
  - intros L. unfold Spec.timestamp_of in Hs. rewrite L, default_timestamp in Hs. congruence.
  - intros L. unfold Spec.timestamp_of in He. rewrite L, default_timestamp in He. congruence.
  - intros lg. rewrite (writes_fst (parse_chapter_rows_writes rt _ first [])).
    cbn [List.app]. rewrite converted_app. cbn [Spec.converted]. fold idx. now rewrite R.
Qed.

(** A row with a title only converts, from 0 to 0. *)
Lemma parse_chapter_row_defaults_both :
  exists c,
    parse_chapter_row ascii_runtime 0 (PDict [(lit "title", PStr (lit "T"))]) = Ok c
    /\ ChapterData.start_sec c = 0 /\ ChapterData.end_sec c = Some 0.
Proof.
  destruct (@parse_chapter_row_defaults ascii_runtime [(lit "title", PStr (lit "T"))] [] [] 0 0 0)
    as (c & R & S & E & _).
  - left; reflexivity.
  - reflexivity.
  - reflexivity.
  - exists c. auto.
Defined.

(** C9 fails as stated: the row [{"end": "soon"}] has no ["start"], and
    it is skipped, because its end does not convert. *)
Lemma row_without_start_is_skipped :
  lookup (lit "start") [(lit "end", PStr (lit "soon"))] = None
  /\ _parse_llm_response
       ascii_runtime
       (env_answering None PNone
          (PDict [(lit "chapters", PList [PDict [(lit "end", PStr (lit "soon"))]])]))
       (completion (PStr [])) []
     = (Ok [], [LogRowFailed ValueError]).
Proof. split; reflexivity. Qed.

(** ** The Orchestrator *)

Lemma StronglySorted_map_seq {A} (R : A -> A -> Prop) (g : nat -> A) (k : nat) :
  forall a,
    (forall i j, (a <= i < j)%nat -> (j < a + k)%nat -> R (g i) (g j)) ->
    StronglySorted R (map g (seq a k)).
Proof.
  induction k as [|k IH]; intros a H; cbn; constructor.
  - apply IH. intros i j Hij Hj. apply H; lia.
  - rewrite Forall_forall. intros y Hy. apply in_map_iff in Hy.
    destruct Hy as (j & <- & Hj). apply in_seq in Hj. apply H; lia.
Qed.

Lemma StronglySorted_weaken {A} (R R' : A -> A -> Prop) (P : A -> Prop) (l : list A) :
  (forall a b, P a -> P b -> R a b -> R' a b) ->
  Forall P l -> StronglySorted R l -> StronglySorted R' l.
Proof.
  intros W Pl H. induction H as [|a l Hs IH Ha]; constructor.
  - apply IH. now inversion Pl.
  - inversion Pl as [|? ? Pa Pl']; subst.
    rewrite Forall_forall in *. intros y Hy. apply W; auto.
Qed.

Lemma key_le_total (a b : Z * Z) : key_le a b = true \/ key_le b a = true.
Proof.
  unfold key_le.
  destruct (Z.ltb_spec (fst a) (fst b)), (Z.ltb_spec (fst b) (fst a)),
           (Z.eqb_spec (fst a) (fst b)), (Z.eqb_spec (fst b) (fst a)),
           (Z.leb_spec (snd a) (snd b)), (Z.leb_spec (snd b) (snd a)); cbn; auto; lia.
Qed.

Lemma key_le_spec (a b : Z * Z) :
  key_le a b = true <-> fst a < fst b \/ (fst a = fst b /\ snd a <= snd b).
Proof.
  unfold key_le. rewrite orb_true_iff, andb_true_iff, Z.ltb_lt, Z.eqb_eq, Z.leb_le. tauto.
Qed.

Lemma key_le_trans (a b c : Z * Z) :
  key_le a b = true -> key_le b c = true -> key_le a c = true.
Proof. rewrite !key_le_spec. lia. Qed.

Lemma chapter_le_key_before (a b : ChapterData.t) :
  sort_key a <> None -> sort_key b <> None ->
  chapter_le a b = true -> Spec.key_before a b.
Proof.
  unfold chapter_le, Spec.key_before.
  destruct (sort_key a) as [ka|], (sort_key b) as [kb|]; try congruence.
  intros _ _ H. exists ka, kb. rewrite key_le_spec in H. auto.
Qed.

(** The fallback's list is what the invariant of the final list asks of
    its length and order, and its chapters lie between 0 and the
    duration. *)
Lemma fallback_stub_final (l0 : TranscriptLine.t) (ls : list TranscriptLine.t)
      (max_chapters : option Z) :
  1 <= int_or max_chapters 10 ->
  let out := _fallback_stub (l0 :: ls) max_chapters in
  out <> []
  /\ StronglySorted Spec.key_before out
  /\ Z.of_nat (length out) <= int_or max_chapters 10
  /\ Forall (fun c => 0 <= ChapterData.start_sec c
                      /\ exists e, ChapterData.end_sec c = Some e
                                   /\ e <= duration_of (last (sorted_by_start (l0 :: ls)) l0))
            out.
Proof.
  intros K. unfold _fallback_stub.
  set (duration := duration_of _).
  set (count := Z.min (int_or max_chapters 10) 10).
  set (step := Z.max (duration / count) 1).
  set (mk := fun idx : Z => ChapterData.mk _ _ _ _ _ _ _ _).
  assert (C1 : 1 <= count <= int_or max_chapters 10) by (unfold count; lia).
  assert (S1 : 1 <= step) by (unfold step; lia).
  cbv zeta. split; [|split; [|split]].
  - intros E. apply (f_equal (@List.length _)) in E.
    rewrite length_map, range_length in E. cbn in E. lia.
  - unfold range. rewrite map_map. apply StronglySorted_map_seq.
    intros i j Hij Hj.
    exists (Z.of_nat i + 1, Z.of_nat i * step), (Z.of_nat j + 1, Z.of_nat j * step).
    assert (T : forall n : nat, sort_key (mk (Z.of_nat n))
                                = Some (Z.of_nat n + 1, Z.of_nat n * step)).
    { intros n. unfold sort_key, order_or_0, mk; cbn [ChapterData.order ChapterData.start_sec truthy].
      destruct (Z.eqb_spec (Z.of_nat n + 1) 0); [lia | reflexivity]. }
    rewrite !T. split; [reflexivity|]. split; [reflexivity|]. cbn [fst snd]. lia.
  - rewrite length_map, range_length. lia.
  - rewrite Forall_forall. intros c Hc. apply in_map_iff in Hc.
    destruct Hc as (i & <- & Hi). apply In_range in Hi.
    unfold mk; cbn [ChapterData.start_sec ChapterData.end_sec].
    split; [nia|]. eexists; split; [reflexivity | lia].
Qed.

(** Snapping against the sorted lines is snapping against the lines. *)
Lemma snapped_same_lines (lines lines' : list TranscriptLine.t) (c : ChapterData.t) :
  (forall l, In l lines <-> In l lines') ->
  Spec.snapped lines c -> Spec.snapped lines' c.
Proof.
  intros EQ.
  assert (M : forall (f : TranscriptLine.t -> Z) x, In x (map f lines) <-> In x (map f lines')).
  { intros f x. rewrite !in_map_iff. split; intros (l & E & I); exists l; split; auto; now apply EQ. }
  assert (F : forall (f : TranscriptLine.t -> Z) (Q : Z -> Prop),
              Forall Q (map f lines') -> Forall Q (map f lines)).
  { intros f Q. rewrite !Forall_forall. intros H x I. apply H, M, I. }
  intros (Hs & e & He & Hm & Hle & Hb).
  split; [apply M, Hs|]. exists e. split; [exact He|].
  split; [destruct Hm as [Hm|Hm]; [left; apply M, Hm | right; exact Hm]|].
  split; [exact Hle|].
  intros WF lo hi [Lo1 Lo2] [Hi1 Hi2]. apply Hb.
  - rewrite Forall_forall in *. intros l I. apply WF, EQ, I.
  - split; [apply M, Lo1 | apply F, Lo2].
  - split; [apply M, Hi1 | apply F, Hi2].
Qed.

Lemma snap_sort_key (chapters : list ChapterData.t) (lines : list TranscriptLine.t) :
  Forall (fun c => sort_key c <> None) chapters ->
  Forall (fun c => sort_key c <> None) (_snap_chapters_to_transcript chapters lines).
Proof.
  intros H. pose proof (snap_same_metadata chapters lines) as F2.
  induction F2 as [|a b l l' Hab _ IH]; constructor.
  - inversion H as [|? ? Ha _]; subst.
    destruct Hab as (_ & _ & _ & _ & _ & Ho).
    unfold sort_key, order_or_0 in *. rewrite <- Ho.
    destruct (truthy (ChapterData.order a)); [|discriminate].
    destruct (ChapterData.order a); congruence.
  - apply IH. now inversion H.
Qed.

Section OrchestratorProofs.
Variable rt : Runtime.
Variable env : Env.

Lemma sorted_chapters_keyed (chapters : list ChapterData.t) :
  Forall (fun c => sort_key c <> None) chapters ->
  sorted_chapters env chapters = Ok (sorted chapter_le chapters)
  /\ StronglySorted Spec.key_before (sorted chapter_le chapters).
Proof.
  intros H. split.
  - unfold sorted_chapters.
    replace (forallb _ chapters) with true; [reflexivity|].
    symmetry. apply forallb_forall. rewrite Forall_forall in H.
    intros c Hc. specialize (H c Hc). now destruct (sort_key c).
  - apply StronglySorted_weaken
      with (R := fun a b => chapter_le a b = true) (P := fun c => sort_key c <> None).
    + intros a b. apply chapter_le_key_before.
    + rewrite Forall_forall in *. intros c Hc. apply H.
      exact (proj1 (sorted_In chapter_le chapters c) Hc).
    + apply sorted_StronglySorted with (P := fun c => sort_key c <> None); [| |exact H].
      * intros a b. unfold chapter_le.
        destruct (sort_key a) as [ka|], (sort_key b) as [kb|]; try congruence.
        intros _ _. apply key_le_total.
      * intros a b c. unfold chapter_le.
        destruct (sort_key a) as [ka|], (sort_key b) as [kb|], (sort_key c) as [kc|];
          try congruence.
        intros _ _ _. apply key_le_trans.
Qed.

(** C1, as the code has it.  For a non-empty segment list and a
    [max_chapters] that is absent or not negative, when the model step
    returns candidates whose [order] is an integer or falsy, or returns
    none, the call returns a list that is not empty, is sorted ascending
    by [(order or 0, start_sec)] and has at most [max_chapters or 10]
    chapters.  With candidates from the model every chapter is snapped:
    it starts at a segment start, does not end before it starts, and
    lies within the transcript's extent when the segments are those of
    the data model.  With none the list is the fallback's, whose chapters
    start at or after 0 and end at or before the duration. *)
Theorem generate_chapters_final_list
        (l0 : TranscriptLine.t) (ls : list TranscriptLine.t) (max_chapters : option Z)
        (lg lg' : log) (candidates : list ChapterData.t) :
  let transcript_lines := l0 :: ls in
  let sorted_lines := sorted_by_start transcript_lines in
  let duration := duration_of (last sorted_lines l0) in
  let prompt := PROMPT_TEMPLATE_format env (Z.max 1 (duration / 60))
                                       (_build_transcript_text sorted_lines) in
  match max_chapters with Some m => 0 <= m | None => True end ->
  (api_response <- _call_volcengine_chat env prompt ;;
   if truthy api_response then _parse_llm_response rt env api_response else ret [])%py lg
  = (Ok candidates, lg') ->
  Forall (fun c => sort_key c <> None) candidates ->
  exists out,
    generate_chapters_from_transcript rt env transcript_lines max_chapters lg = (Ok out, lg')
    /\ Spec.final_list transcript_lines max_chapters duration candidates out.
Proof.
  intros transcript_lines sorted_lines duration prompt Hmax Hmodel Hkeys.
  unfold Spec.final_list.
  assert (K : 1 <= int_or max_chapters 10).
  { unfold int_or. destruct max_chapters as [m|]; [|lia].
    destruct (Z.eqb_spec m 0); lia. }
  assert (G : generate_chapters_from_transcript rt env transcript_lines max_chapters lg
              = match candidates with
                | _ :: _ =>
                    (chapters_sorted <-
                       lift (sorted_chapters env
                               (_snap_chapters_to_transcript candidates sorted_lines)) ;;
                     ret (slice_to chapters_sorted (int_or max_chapters 10)))%py lg'
                | [] => (Ok (_fallback_stub transcript_lines max_chapters), lg')
                end).
  { unfold generate_chapters_from_transcript, transcript_lines.
    fold transcript_lines. fold sorted_lines. fold duration. fold prompt.
    unfold bind at 1. unfold bind at 1 in Hmodel.
    destruct (_call_volcengine_chat env prompt lg) as [[api|e] lg1]; [|discriminate].
    unfold bind at 1. rewrite Hmodel. destruct candidates; reflexivity. }
  destruct candidates as [|c0 cs].
  - destruct (fallback_stub_final l0 ls max_chapters K) as (NE & SS & Len & Fb).
    exists (_fallback_stub transcript_lines max_chapters).
    split; [exact G|]. split; [exact NE|]. split; [exact SS|]. split; [exact Len|].
    split; [congruence|]. intros _. split; [reflexivity | exact Fb].
  - set (snapped := _snap_chapters_to_transcript (c0 :: cs) sorted_lines) in *.
    assert (Ks : Forall (fun c => sort_key c <> None) snapped)
      by (apply snap_sort_key, Hkeys).
    destruct (sorted_chapters_keyed Ks) as (ES & SS).
    rewrite ES in G. unfold bind, lift, ret in G.
    exists (slice_to (sorted chapter_le snapped) (int_or max_chapters 10)).
    assert (Len : length (sorted chapter_le snapped) = S (length cs)).
    { rewrite sorted_length. unfold snapped.
      pose proof (snap_same_metadata (c0 :: cs) sorted_lines) as F2.
      apply Forall2_length in F2. rewrite <- F2. reflexivity. }
    unfold slice_to in *. destruct (Z.ltb_spec (int_or max_chapters 10) 0) as [?|_]; [lia|].
    split; [exact G|]. split; [|split; [|split; [|split]]].
    + destruct (sorted chapter_le snapped) as [|x xs]; [discriminate|].
      destruct (Z.to_nat (int_or max_chapters 10)) eqn:E; [exfalso; lia | discriminate].
    + apply StronglySorted_firstn, SS.
    + pose proof (firstn_le_length (Z.to_nat (int_or max_chapters 10))
                                   (sorted chapter_le snapped)). 
      rewrite length_firstn. lia.
    + intros _. rewrite Forall_forall. intros c Hc.
      apply In_firstn in Hc. apply sorted_In in Hc.
      apply snapped_same_lines with (lines := sorted_lines).
      * intros l. apply sorted_In.
      * unfold snapped, sorted_lines, sorted_by_start, transcript_lines in Hc.
        destruct (sorted _ (l0 :: ls)) as [|s0 ss] eqn:Es.
        { exfalso. revert Es. apply sorted_nonempty. discriminate. }
        apply snap_cons in Hc. destruct Hc as (ch0 & s & e & _ & _ & Hs & He & Is & Ie).
        unfold sorted_lines, sorted_by_start, transcript_lines. rewrite Es.
        eapply snapped_intro; eassumption.
    + discriminate.
Qed.

End OrchestratorProofs.

(** Scenario C end to end: the model answers with one chapter from 5 to
    15, and the call returns it snapped. *)
Lemma generate_chapters_scenario_C :
  exists out,
    generate_chapters_from_transcript
      ascii_runtime
      (env_answering (Some (lit "key")) (completion (PStr (lit "{}"))) scenario_C_decoded)
      scenario_lines (Some 10) []
    = (Ok out, [])
    /\ Spec.final_list scenario_lines (Some 10) 30 [candidate 5 (Some 15) (PInt 1)] out.
Proof.
  apply (@generate_chapters_final_list
           ascii_runtime
           (env_answering (Some (lit "key")) (completion (PStr (lit "{}"))) scenario_C_decoded)
           (TranscriptLine.mk 0 (Some 10) (lit "a"))
           [TranscriptLine.mk 10 (Some 20) (lit "b"); TranscriptLine.mk 20 (Some 30) (lit "c")]
           (Some 10) [] [] [candidate 5 (Some 15) (PInt 1)]).
  - cbn; lia.
  - reflexivity.
  - constructor; [discriminate | constructor].
Defined.

(** C1 fails as stated.  With one segment from 100 to 200 and no
    provider key, the fallback's first chapter starts at 0, before every
    segment start; and with a negative [max_chapters] the fallback
    returns no chapter at all. *)
Lemma generate_chapters_outside_transcript :
  (let lines := [TranscriptLine.mk 100 (Some 200) (lit "a")] in
   exists out c,
     generate_chapters_from_transcript ascii_runtime (env_answering None PNone PNone)
                                       lines (Some 10) []
     = (Ok out, [])
     /\ In c out
     /\ Spec.is_min 100 (Spec.starts lines)
     /\ ChapterData.start_sec c < 100)
  /\ generate_chapters_from_transcript ascii_runtime (env_answering None PNone PNone)
                                       scenario_lines (Some (-3)) []
     = (Ok [], []).
Proof.
  split; [|reflexivity].
  cbv zeta. eexists _, _. split; [reflexivity|].
  split; [left; reflexivity|].
  split; [|reflexivity].
  split; [now left | constructor; [cbn; lia | constructor]].
Qed.

(* ================================================================== *)
(** * Further properties of the code *)
(* ================================================================== *)

(** ** Integers, written and read *)

Lemma lit_cons (a : ascii) (s : string) : lit (String a s) = N_of_ascii a :: lit s.
Proof. reflexivity. Qed.

Lemma lit_string_of_uint_digits (d : Decimal.uint) :
  Forall (fun c => (48 <= c <= 57)%N) (lit (NilEmpty.string_of_uint d)).
Proof.
  induction d; cbn [NilEmpty.string_of_uint]; [constructor|..];
    rewrite lit_cons; constructor; try assumption; cbn; lia.
Qed.

Lemma usize_length (d : Decimal.uint) :
  DecimalPos.Unsigned.usize d = N.of_nat (length (lit (NilEmpty.string_of_uint d))).
Proof.
  induction d; cbn [DecimalPos.Unsigned.usize NilEmpty.string_of_uint]; [reflexivity|..];
    rewrite lit_cons, IHd; cbn [length]; lia.
Qed.

Lemma scan_digits_digit (k : N) (acc : Z) (n : N) (s : str) :
  (k < 10)%N ->
  scan_digits false acc n ((48 + k)%N :: s)
  = scan_digits false (10 * acc + Z.of_N k) (N.succ n) s.
Proof.
  intros H. cbn [scan_digits].
  destruct (N.eqb_spec (48 + k) 95); [lia|].
  unfold ascii_digit.
  destruct (N.leb_spec 48 (48 + k)); [|lia].
  destruct (N.leb_spec (48 + k) 57); [|lia].
  cbn [andb]. do 3 f_equal. lia.
Qed.

Lemma scan_digits_uint (d : Decimal.uint) :
  forall (acc : Z) (n : N),
    scan_digits false acc n (lit (NilEmpty.string_of_uint d))
    = Some (acc * 10 ^ Z.of_N (DecimalPos.Unsigned.usize d) + Z.of_N (Pos.of_uint d),
            (n + DecimalPos.Unsigned.usize d)%N, []).
Proof.
  assert (P : forall k : Z, 0 <= k -> 10 ^ (Z.succ k) = 10 * 10 ^ k)
    by (intros; apply Z.pow_succ_r; assumption).
  induction d; intros acc n.
  1: { cbn. f_equal. f_equal. f_equal; lia. }
  all: cbn [NilEmpty.string_of_uint]; rewrite lit_cons.
  all: match goal with
       | |- context [N_of_ascii ?a] =>
           let v := eval vm_compute in (N_of_ascii a - 48)%N in
           change (N_of_ascii a) with (48 + v)%N
       end.
  all: rewrite scan_digits_digit by lia; rewrite IHd.
  all: apply f_equal; apply (f_equal2 pair); [|reflexivity].
  all: apply (f_equal2 pair); [|cbn [DecimalPos.Unsigned.usize]; lia].
  all: rewrite !DecimalPos.Unsigned.of_uint_alt.
  all: unfold Decimal.rev at 2; cbn [Decimal.revapp].
  all: match goal with
       | |- context [Decimal.revapp ?x ?t] =>
           lazymatch t with
           | Decimal.Nil => fail
           | _ => rewrite (DecimalPos.Unsigned.of_lu_revapp x t)
           end
       end.
  all: cbn [DecimalPos.Unsigned.usize DecimalPos.Unsigned.of_lu].
  all: rewrite N2Z.inj_succ, P by lia.
  all: rewrite N2Z.inj_add, N2Z.inj_mul, N2Z.inj_pow.
  all: cbn [Z.of_N N.mul N.add Pos.mul Pos.add]; lia.
Qed.

(** A number written without a leading zero has as many digits as its
    size asks. *)
Lemma of_uint_lower (d : Decimal.uint) :
  match d with
  | Decimal.Nil | Decimal.D0 _ => True
  | _ => 10 ^ (Z.of_N (DecimalPos.Unsigned.usize d) - 1) <= Z.of_N (Pos.of_uint d)
  end.
Proof.
  destruct d; try exact I.
  all: rewrite DecimalPos.Unsigned.of_uint_alt.
  all: unfold Decimal.rev; cbn [Decimal.revapp].
  all: rewrite (DecimalPos.Unsigned.of_lu_revapp d).
  all: cbn [DecimalPos.Unsigned.usize DecimalPos.Unsigned.of_lu].
  all: rewrite N2Z.inj_succ, N2Z.inj_add, N2Z.inj_mul, N2Z.inj_pow.
  all: replace (Z.succ (Z.of_N (DecimalPos.Unsigned.usize d)) - 1)
         with (Z.of_N (DecimalPos.Unsigned.usize d)) by lia.
  all: assert (0 < Z.of_N 10 ^ Z.of_N (DecimalPos.Unsigned.usize d))
         by (apply Z.pow_pos_nonneg; lia).
  all: change (Z.of_N 10) with 10 in *.
  all: assert (0 <= Z.of_N (DecimalPos.Unsigned.of_lu (Decimal.revapp d Decimal.Nil))) by lia.
  all: cbn [Z.of_N N.mul N.add Pos.mul Pos.add]; nia.
Qed.

Lemma nzhead_head (d : Decimal.uint) :
  match Decimal.nzhead d with Decimal.D0 _ => False | _ => True end.
Proof. induction d; cbn; auto. Qed.

Lemma to_uint_size (n : N) :
  Z.of_N n < 10 ^ 640 -> (DecimalPos.Unsigned.usize (N.to_uint n) <= 640)%N.
Proof.
  intros B. destruct n as [|p]; [cbn; lia|].
  pose proof (DecimalN.Unsigned.of_to (N.pos p)) as V.
  pose proof (DecimalN.Unsigned.to_of (N.to_uint (N.pos p))) as U.
  rewrite V in U.
  pose proof (nzhead_head (N.to_uint (N.pos p))) as Hd.
  pose proof (of_uint_lower (N.to_uint (N.pos p))) as L.
  change (N.of_uint (N.to_uint (N.pos p))) with (Pos.of_uint (N.to_uint (N.pos p))) in V.
  unfold Decimal.unorm in U.
  destruct (N.le_gt_cases (DecimalPos.Unsigned.usize (N.to_uint (N.pos p))) 640) as [?|G];
    [assumption|exfalso].
  assert (P : 10 ^ 640 <= 10 ^ (Z.of_N (DecimalPos.Unsigned.usize (N.to_uint (N.pos p))) - 1))
    by (apply Z.pow_le_mono_r; lia).
  rewrite V in L.
  destruct (N.to_uint (N.pos p)) eqn:E; try lia.
  - cbn in G. lia.
  - cbn [Decimal.nzhead] in U, Hd.
    destruct (Decimal.nzhead u) eqn:E'; try contradiction; try discriminate.
    injection U as U0. subst u. cbn in G. lia.
Qed.

Section IntOfDigits.
Variable rt : Runtime.

Lemma map_int_ascii_id (s : str) :
  Forall (fun c => (c < 128)%N) s -> map (int_ascii rt) s = s.
Proof.
  induction 1 as [|c s Hc _ IH]; cbn [map]; [reflexivity|].
  rewrite IH. unfold int_ascii. destruct (N.ltb_spec c 128); [reflexivity|lia].
Qed.

Lemma int_digit_first (c : char) (s : str) :
  (48 <= c <= 57)%N -> Forall (fun c => (c < 128)%N) s ->
  int rt (c :: s) = Behaviour.int_tail rt 1 (c :: s)
  /\ int rt (45%N :: c :: s) = Behaviour.int_tail rt (-1) (c :: s).
Proof.
  intros Hc Hs. unfold int. cbn [map]. rewrite (map_int_ascii_id Hs).
  assert (E : In c [48; 49; 50; 51; 52; 53; 54; 55; 56; 57]%N) by (cbn; lia).
  cbn in E. repeat (destruct E as [<-|E]; [split; reflexivity|]). destruct E.
Qed.

Lemma int_uint (d : Decimal.uint) :
  d <> Decimal.Nil ->
  (int_max_str_digits rt = 0 \/ DecimalPos.Unsigned.usize d <= 640)%N ->
  int rt (lit (NilEmpty.string_of_uint d)) = Ok (Z.of_N (Pos.of_uint d))
  /\ int rt (45%N :: lit (NilEmpty.string_of_uint d)) = Ok (- Z.of_N (Pos.of_uint d)).
Proof.
  intros NN Lim.
  pose proof (lit_string_of_uint_digits d) as D.
  pose proof (scan_digits_uint d 0 0%N) as S.
  assert (U : (0 < DecimalPos.Unsigned.usize d)%N)
    by (destruct d; [congruence|..]; cbn [DecimalPos.Unsigned.usize]; lia).
  destruct (lit (NilEmpty.string_of_uint d)) as [|c s] eqn:E.
  { rewrite usize_length, E in U. cbn in U. lia. }
  inversion D as [|? ? Hc Hs]; subst.
  assert (Hs' : Forall (fun c => (c < 128)%N) s).
  { rewrite Forall_forall in *. intros x Hx. specialize (Hs x Hx). cbn in Hs. lia. }
  destruct (int_digit_first Hc Hs') as (-> & ->).
  unfold Behaviour.int_tail. rewrite S.
  destruct (N.eqb_spec (0 + DecimalPos.Unsigned.usize d) 0); [lia|].
  replace ((640 <? 0 + DecimalPos.Unsigned.usize d)
           && (0 <? int_max_str_digits rt)
           && (int_max_str_digits rt <? 0 + DecimalPos.Unsigned.usize d))%N with false.
  2: { symmetry. destruct Lim as [L|L].
       - rewrite L. cbn. now rewrite andb_false_r.
       - destruct (N.ltb_spec 640 (0 + DecimalPos.Unsigned.usize d)); [lia|reflexivity]. }
  cbn [c_skip_space]. split; f_equal; lia.
Qed.

(** [int] reads back what [format(z, "02d")] writes. *)
Lemma int_format_02d (z : Z) :
  int_max_str_digits rt = 0%N \/ Z.abs z < 10 ^ 640 ->
  int rt (format_02d z) = Ok z.
Proof.
  intros Lim. unfold format_02d, digits_of_N.
  set (u := N.to_uint (Z.abs_N z)).
  assert (NN : u <> Decimal.Nil).
  { unfold u. destruct (Z.abs_N z); [discriminate | apply DecimalPos.Unsigned.to_uint_nonnil]. }
  assert (V : Z.of_N (Pos.of_uint u) = Z.abs z).
  { unfold u. change (Pos.of_uint ?d) with (N.of_uint d).
    rewrite DecimalN.Unsigned.of_to. lia. }
  assert (Lim' : (int_max_str_digits rt = 0 \/ DecimalPos.Unsigned.usize u <= 640)%N).
  { destruct Lim as [L|L]; [now left | right]. apply to_uint_size. lia. }
  destruct (int_uint NN Lim') as (P & M).
  destruct (Z.ltb_spec z 0).
  - change (lit "-" ++ ?x) with (45%N :: x). rewrite M. f_equal. lia.
  - destruct (Nat.ltb_spec (length (lit (NilEmpty.string_of_uint u))) 2) as [Sh|_].
    + change (lit "0" ++ lit (NilEmpty.string_of_uint u))
        with (lit (NilEmpty.string_of_uint (Decimal.D0 u))).
      assert (Lim0 : (int_max_str_digits rt = 0
                      \/ DecimalPos.Unsigned.usize (Decimal.D0 u) <= 640)%N).
      { right. cbn [DecimalPos.Unsigned.usize]. rewrite usize_length. lia. }
      destruct (@int_uint (Decimal.D0 u) ltac:(discriminate) Lim0) as (P0 & _).
      rewrite P0. f_equal. change (Pos.of_uint (Decimal.D0 u)) with (Pos.of_uint u). lia.
    + rewrite P. f_equal. lia.
Qed.

End IntOfDigits.

(** ** Timestamps, written and read *)

Lemma split_from_no_sep (sep : char) (a : str) :
  forall cur, ~ In sep a -> split_from cur sep a = [rev cur ++ a].
Proof.
  induction a as [|c a IH]; intros cur H; cbn [split_from].
  - now rewrite app_nil_r.
  - destruct (N.eqb_spec c sep) as [->|_]; [exfalso; apply H; now left|].
    rewrite IH by (intros I; apply H; now right).
    cbn [rev]. now rewrite <- app_assoc.
Qed.

Lemma split_from_app (sep : char) (a b : str) :
  forall cur,
    ~ In sep a ->
    split_from cur sep (a ++ sep :: b) = (rev cur ++ a) :: split_from [] sep b.
Proof.
  induction a as [|c a IH]; intros cur H; cbn [split_from List.app].
  - rewrite N.eqb_refl. now rewrite app_nil_r.
  - destruct (N.eqb_spec c sep) as [->|_]; [exfalso; apply H; now left|].
    rewrite IH by (intros I; apply H; now right).
    cbn [rev]. now rewrite <- app_assoc.
Qed.

Lemma split_from_colon (a b : str) (cur : str) :
  ~ In 58%N a ->
  split_from cur 58 (a ++ lit ":" ++ b) = (rev cur ++ a) :: split_from [] 58 b.
Proof. apply (split_from_app 58%N a b cur). Qed.

Lemma split_length (sep : char) (s : str) :
  forall cur, length (split_from cur sep s) = S (count_occ N.eq_dec s sep).
Proof.
  induction s as [|c s IH]; intros cur; cbn [split_from count_occ]; [reflexivity|].
  destruct (N.eqb_spec c sep) as [->|NE].
  - destruct (N.eq_dec sep sep); [|congruence]. cbn [length]. now rewrite IH.
  - destruct (N.eq_dec c sep); [congruence|]. apply IH.
Qed.

Lemma format_02d_no_colon (z : Z) : ~ In 58%N (format_02d z).
Proof.
  unfold format_02d, digits_of_N.
  pose proof (lit_string_of_uint_digits (N.to_uint (Z.abs_N z))) as D.
  rewrite Forall_forall in D.
  destruct (z <? 0); [|destruct (_ <? 2)%nat]; intros I;
    try (apply in_app_or in I; destruct I as [[I|[]]|I]; [discriminate|]);
    specialize (D _ I); lia.
Qed.

Lemma rmap_length {A B} (f : A -> result B) (l : list A) (ys : list B) :
  rmap f l = Ok ys -> length ys = length l.
Proof.
  revert ys; induction l as [|x l IH]; intros ys; cbn [rmap rbind].
  - now intros [= <-].
  - destruct (f x); [|discriminate]. cbn [rbind].
    destruct (rmap f l) as [zs|]; [|discriminate]. cbn [rbind].
    intros [= <-]. cbn. f_equal. now apply IH.
Qed.

Lemma rmap_raises {A B} (f : A -> result B) (l : list A) (e : exn) :
  rmap f l = Raise e -> exists x, In x l /\ f x = Raise e.
Proof.
  induction l as [|x l IH]; cbn [rmap rbind]; [discriminate|].
  destruct (f x) eqn:F.
  - cbn [rbind]. destruct (rmap f l); [discriminate|]. cbn [rbind].
    intros [= ->]. destruct (IH eq_refl) as (y & I & Fy). exists y. split; [now right|exact Fy].
  - cbn [rbind]. intros [= ->]. exists x. split; [now left|exact F].
Qed.

(** [int] raises [ValueError] and nothing else. *)
Lemma int_raises (rt : Runtime) (s : str) (e : exn) : int rt s = Raise e -> e = ValueError.
Proof.
  unfold int.
  repeat match goal with
         | |- context [match ?x with _ => _ end] => destruct x
         end; intros [=]; congruence.
Qed.

(** [_hms_to_seconds] reads back what [_format_seconds] writes. *)
Lemma _hms_to_seconds_format_seconds (rt : Runtime) (total_seconds : Z) :
  int_max_str_digits rt = 0%N \/ Z.abs total_seconds < 10 ^ 640 ->
  _hms_to_seconds rt (PStr (_format_seconds total_seconds)) = Ok total_seconds.
Proof.
  intros Lim. unfold _hms_to_seconds, _format_seconds, split.
  cbv zeta.
  set (h := total_seconds / 3600). set (m := total_seconds mod 3600 / 60).
  set (s := total_seconds mod 60).
  assert (Hm : 0 <= total_seconds mod 3600 < 3600) by (apply Z.mod_pos_bound; lia).
  assert (Bm : 0 <= m < 60) by (unfold m; split; [apply Z.div_pos; lia | apply Z.div_lt_upper_bound; lia]).
  assert (Bs : 0 <= s < 60) by (apply Z.mod_pos_bound; lia).
  assert (Bh : Z.abs h <= Z.abs total_seconds).
  { unfold h. pose proof (Z.div_mod total_seconds 3600). 
    pose proof (Z.mod_pos_bound total_seconds 3600). lia. }
  assert (P10 : 100 <= 10 ^ 640) by (apply (Z.pow_le_mono_r 10 2 640); lia).
  rewrite !split_from_colon by apply format_02d_no_colon.
  rewrite split_from_no_sep by apply format_02d_no_colon.
  cbn [rev List.app rmap rbind].
  rewrite !int_format_02d by (destruct Lim; [now left | right; lia]).
  cbn [rbind]. f_equal. unfold h, m, s.
  pose proof (Z.div_mod total_seconds 3600).
  pose proof (Z.div_mod (total_seconds mod 3600) 60).
  assert (E : total_seconds mod 60 = (total_seconds mod 3600) mod 60).
  { symmetry. apply Z.mod_mod_divide. exists 60. reflexivity. }
  lia.
Qed.

(** X1. A timestamp written by [_format_seconds] is read back by
    [_hms_to_seconds] as the number of seconds it was written from: for
    every integer, negative ones included, as long as the interpreter's
    limit on the digits of an integer is off or the number has fewer than
    640 digits. *)
Theorem _hms_to_seconds_of_format_seconds (rt : Runtime) (total_seconds : Z) :
  int_max_str_digits rt = 0%N \/ Z.abs total_seconds < 10 ^ 640 ->
  _hms_to_seconds rt (PStr (_format_seconds total_seconds)) = Ok total_seconds.
Proof. apply _hms_to_seconds_format_seconds. Qed.

(** X1 at -3725 seconds, which is written [-2:57:55]. *)
Lemma _hms_to_seconds_of_format_seconds_negative :
  _hms_to_seconds ascii_runtime (PStr (_format_seconds (-3725))) = Ok (-3725).
Proof.
  apply (@_hms_to_seconds_of_format_seconds ascii_runtime (-3725)).
  right. apply (Z.lt_le_trans _ (10 ^ 4)); [reflexivity | apply Z.pow_le_mono_r; lia].
Defined.

(** X2. The ways [_hms_to_seconds] ends.  On a string it returns a
    number only when the string holds one colon or two, and raises
    [ValueError] otherwise: for a part that [int] does not read and for
    any other number of parts.  On a value that is not a string it raises
    [AttributeError]. *)
Theorem _hms_to_seconds_errors (rt : Runtime) (time_str : pyval) :
  match time_str with
  | PStr s =>
      (exists v, _hms_to_seconds rt time_str = Ok v
                 /\ (count_occ N.eq_dec s 58%N = 1 \/ count_occ N.eq_dec s 58%N = 2)%nat)
      \/ _hms_to_seconds rt time_str = Raise ValueError
  | _ => _hms_to_seconds rt time_str = Raise AttributeError
  end.
Proof.
  destruct time_str as [| | | |s| |]; try reflexivity.
  unfold _hms_to_seconds, split.
  destruct (rmap (int rt) (split_from [] 58%N s)) as [parts|e] eqn:R; cbn [rbind].
  - apply rmap_length in R. rewrite split_length in R.
    destruct parts as [|a [|b [|c [|d parts]]]]; cbn in R; auto.
    + left. eexists; split; [reflexivity|]. left. lia.
    + left. eexists; split; [reflexivity|]. right. lia.
  - right. apply rmap_raises in R. destruct R as (x & _ & R).
    apply int_raises in R. now subst.
Qed.

(** ** Nearest timestamps *)

(** X3. [_nearest_time] returns the target itself when there is no
    candidate, and otherwise the first of the closest candidates: every
    candidate in front of the one returned is strictly farther from the
    target, and none behind it is closer. *)
Theorem _nearest_time_first_closest (target c : Z) (cs : list Z) :
  _nearest_time target [] = target
  /\ exists before after,
       c :: cs = before ++ _nearest_time target (c :: cs) :: after
       /\ Forall (fun x => Z.abs (_nearest_time target (c :: cs) - target)
                           < Z.abs (x - target)) before
       /\ Forall (fun x => Z.abs (_nearest_time target (c :: cs) - target)
                           <= Z.abs (x - target)) after.
Proof.
  split; [reflexivity|]. unfold _nearest_time.
  set (step := fun closest x => if Z.abs (x - target) <? Z.abs (closest - target) then x else closest).
  assert (G : forall rest before best mid,
             Forall (fun x => Z.abs (best - target) < Z.abs (x - target)) before ->
             Forall (fun x => Z.abs (best - target) <= Z.abs (x - target)) mid ->
             exists before' after',
               before ++ best :: mid ++ rest = before' ++ fold_left step rest best :: after'
               /\ Forall (fun x => Z.abs (fold_left step rest best - target)
                                   < Z.abs (x - target)) before'
               /\ Forall (fun x => Z.abs (fold_left step rest best - target)
                                   <= Z.abs (x - target)) after').
  { induction rest as [|x rest IH]; intros before best mid Hb Hm; cbn [fold_left].
    - exists before, mid. rewrite app_nil_r. auto.
    - unfold step at 2 4 6. destruct (Z.ltb_spec (Z.abs (x - target)) (Z.abs (best - target))) as [L|L].
      + destruct (IH (before ++ best :: mid) x []) as (b' & a' & E & F1 & F2).
        * apply Forall_app. split; [|constructor].
          -- eapply Forall_impl; [|exact Hb]. cbn. intros; lia.
          -- exact L.
          -- eapply Forall_impl; [|exact Hm]. cbn. intros; lia.
        * constructor.
        * exists b', a'. split; [|auto]. rewrite <- E. rewrite <- !app_assoc. reflexivity.
      + destruct (IH before best (mid ++ [x])) as (b' & a' & E & F1 & F2).
        * exact Hb.
        * apply Forall_app. split; [exact Hm | constructor; [lia | constructor]].
        * exists b', a'. split; [|auto]. rewrite <- E. rewrite <- !app_assoc. reflexivity. }
  destruct (G cs [] c []) as (b' & a' & E & F1 & F2); try constructor.
  exists b', a'. auto.
Qed.

Lemma _nearest_time_member (target : Z) (candidates : list Z) :
  In target candidates -> _nearest_time target candidates = target.
Proof.
  intros I.
  assert (NE : candidates <> []) by (destruct candidates; [destruct I | discriminate]).
  pose proof (_nearest_time_closest target candidates) as C.
  rewrite Forall_forall in C. specialize (C _ I). lia.
Qed.

Lemma fold_left_min_is_min (l0 : Z) (ls : list Z) (lo : Z) :
  Spec.is_min lo (l0 :: ls) -> fold_left Z.min ls l0 = lo.
Proof.
  intros [I F]. destruct (fold_left_min_le ls l0) as [H1 H2].
  pose proof (fold_left_min_In ls l0) as M.
  rewrite Forall_forall in F, H2. specialize (F _ M).
  destruct I as [<-|I]; [lia|]. specialize (H2 _ I). lia.
Qed.

Lemma fold_left_max_is_max (l0 : Z) (ls : list Z) (hi : Z) :
  Spec.is_max hi (l0 :: ls) -> fold_left Z.max ls l0 = hi.
Proof.
  intros [I F]. destruct (fold_left_max_ge ls l0) as [H1 H2].
  pose proof (fold_left_max_In ls l0) as M.
  rewrite Forall_forall in F, H2. specialize (F _ M).
  destruct I as [<-|I]; [lia|]. specialize (H2 _ I). lia.
Qed.

(** X4. Against a non-empty segment list, every chapter the Snapper
    returns is one of the candidates with its boundaries moved to nearest
    timestamps: the start is a segment start, and no segment start is
    closer to the candidate's start clamped into [[min_time, max_time]];
    the end is a segment end-or-start that no other is closer to the
    candidate's clamped end than, or the chapter's start when that is
    later; the other fields are the candidate's. *)
Theorem snap_nearest (chapters : list ChapterData.t) (transcript_lines : list TranscriptLine.t)
        (min_time max_time : Z) (c : ChapterData.t) :
  Spec.is_min min_time (Spec.starts transcript_lines) ->
  Spec.is_max max_time (Spec.ends_or_starts transcript_lines) ->
  In c (_snap_chapters_to_transcript chapters transcript_lines) ->
  exists ch, In ch chapters /\ Behaviour.nearest_boundaries transcript_lines min_time max_time ch c.
Proof.
  intros Hlo Hhi Hin.
  destruct transcript_lines as [|l0 ls]; [destruct Hlo as [[] _]|].
  destruct chapters as [|ch0 chs]; [destruct Hin|].
  unfold _snap_chapters_to_transcript in Hin.
  change (map TranscriptLine.start_sec (l0 :: ls)) with (Spec.starts (l0 :: ls)) in Hin.
  change (map end_value (l0 :: ls)) with (Spec.ends_or_starts (l0 :: ls)) in Hin.
  pose proof (@fold_left_min_is_min (TranscriptLine.start_sec l0)
                (map TranscriptLine.start_sec ls) min_time Hlo) as Emin.
  pose proof (@fold_left_max_is_max (end_value l0) (map end_value ls) max_time Hhi) as Emax.
  rewrite Emin, Emax in Hin.
  apply in_map_iff in Hin. destruct Hin as (ch & <- & Hch).
  exists ch. split; [exact Hch|].
  unfold Behaviour.nearest_boundaries. cbn [ChapterData.start_sec ChapterData.end_sec].
  split; [repeat split|].
  split; [apply _nearest_time_In; discriminate|].
  split; [apply _nearest_time_closest|].
  eexists. split; [apply _nearest_time_In; discriminate|].
  split; [apply _nearest_time_closest|].
  f_equal.
  match goal with |- context [if ?e <? ?s then _ else _] => destruct (Z.ltb_spec e s) end; lia.
Qed.

(** X4 on the three segments from 0 to 30 and a candidate from 5 to 15:
    both 0 and 10 are nearest to 5, and the chapter starts at 0. *)
Lemma snap_nearest_scenario_C :
  exists ch,
    In ch [candidate 5 (Some 15) (PInt 1)]
    /\ Behaviour.nearest_boundaries scenario_lines 0 30 ch (candidate 0 (Some 10) (PInt 1)).
Proof.
  apply (@snap_nearest [candidate 5 (Some 15) (PInt 1)] scenario_lines 0 30
                       (candidate 0 (Some 10) (PInt 1))).
  - split; [cbn; auto | repeat constructor; cbn; lia].
  - split; [cbn; auto | repeat constructor; cbn; lia].
  - left; reflexivity.
Defined.

(** X5. The Snapper leaves alone what is aligned already: when every
    segment ends at or after its start, candidates that start at a
    segment start and end, not before their start, at a segment
    end-or-start come back unchanged.  So snapping twice is snapping
    once on such input. *)
Theorem snap_aligned_unchanged (chapters : list ChapterData.t)
        (transcript_lines : list TranscriptLine.t) :
  Forall Spec.well_formed transcript_lines ->
  Forall (Behaviour.aligned transcript_lines) chapters ->
  _snap_chapters_to_transcript chapters transcript_lines = chapters.
Proof.
  intros WF Al.
  destruct chapters as [|ch0 chs]; [reflexivity|].
  destruct transcript_lines as [|l0 ls]; [reflexivity|].
  unfold _snap_chapters_to_transcript.
  change (map TranscriptLine.start_sec (l0 :: ls)) with (Spec.starts (l0 :: ls)).
  change (map end_value (l0 :: ls)) with (Spec.ends_or_starts (l0 :: ls)).
  set (lo := fold_left Z.min _ _). set (hi := fold_left Z.max _ _).
  assert (Lo : Forall (fun x => lo <= x) (Spec.starts (l0 :: ls))).
  { destruct (fold_left_min_le (map TranscriptLine.start_sec ls) (TranscriptLine.start_sec l0)).
    constructor; assumption. }
  assert (Hi : Forall (fun x => x <= hi) (Spec.ends_or_starts (l0 :: ls))).
  { destruct (fold_left_max_ge (map end_value ls) (end_value l0)).
    constructor; assumption. }
  assert (B : forall x, In x (Spec.starts (l0 :: ls)) \/ In x (Spec.ends_or_starts (l0 :: ls)) ->
                        lo <= x <= hi).
  { rewrite Forall_forall in Lo, Hi, WF. intros x [I|I].
    - split; [apply Lo, I|]. apply in_map_iff in I. destruct I as (l & <- & Hl).
      transitivity (end_value l); [|apply Hi, in_map, Hl].
      specialize (WF l Hl). unfold Spec.well_formed, end_value in *.
      destruct (TranscriptLine.end_sec l); lia.
    - split; [|apply Hi, I]. apply in_map_iff in I. destruct I as (l & <- & Hl).
      transitivity (TranscriptLine.start_sec l); [apply Lo, in_map, Hl|].
      specialize (WF l Hl). unfold Spec.well_formed, end_value in *.
      destruct (TranscriptLine.end_sec l); lia. }
  generalize dependent (ch0 :: chs). intros l Al.
  induction Al as [|ch l (Is & e & He & Ie & Le) _ IH]; cbn [map]; [reflexivity|].
  rewrite IH. f_equal. rewrite He.
  pose proof (B _ (or_introl Is)). pose proof (B _ (or_intror Ie)).
  replace (Z.max (Z.min (ChapterData.start_sec ch) hi) lo) with (ChapterData.start_sec ch) by lia.
  replace (Z.max (Z.min e hi) lo) with e by lia.
  rewrite (_nearest_time_member _ _ Is), (_nearest_time_member _ _ Ie).
  destruct (Z.ltb_spec e (ChapterData.start_sec ch)); [lia|].
  destruct ch; cbn in *; now subst.
Qed.

(** X5 on the three segments from 0 to 30 and two aligned chapters. *)
Lemma snap_aligned_unchanged_scenario :
  _snap_chapters_to_transcript
    [candidate 0 (Some 10) (PInt 1); candidate 10 (Some 30) (PInt 2)] scenario_lines
  = [candidate 0 (Some 10) (PInt 1); candidate 10 (Some 30) (PInt 2)].
Proof.
  apply (@snap_aligned_unchanged
           [candidate 0 (Some 10) (PInt 1); candidate 10 (Some 30) (PInt 2)] scenario_lines).
  - repeat constructor; cbn; lia.
  - repeat constructor; cbn; auto;
      eexists; (split; [reflexivity|]); (split; [cbn; auto | cbn; lia]).
Defined.

(** ** Trimming *)

Lemma lstrip_app_cases (a b : str) :
  lstrip (a ++ b) = match lstrip a with [] => lstrip b | _ :: _ => lstrip a ++ b end.
Proof.
  induction a as [|c a IH]; cbn [List.app lstrip]; [reflexivity|].
  destruct (isspace c); [exact IH | reflexivity].
Qed.

Lemma rstrip_cons (c : char) (s : str) :
  rstrip (c :: s)
  = match rstrip s with
    | [] => if isspace c then [] else [c]
    | _ :: _ => c :: rstrip s
    end.
Proof.
  unfold rstrip. cbn [rev]. rewrite lstrip_app_cases.
  destruct (lstrip (rev s)) as [|x l] eqn:E.
  - cbn [rev lstrip]. destruct (isspace c); reflexivity.
  - rewrite rev_app_distr. cbn [rev List.app].
    destruct (rev l ++ [x]) eqn:E'; [destruct (rev l); discriminate | reflexivity].
Qed.

Lemma rstrip_nil : rstrip [] = [].
Proof. reflexivity. Qed.

Lemma rstrip_idem (s : str) : rstrip (rstrip s) = rstrip s.
Proof. unfold rstrip. now rewrite rev_involutive, lstrip_idem. Qed.

Lemma lstrip_rstrip (s : str) : lstrip (rstrip s) = rstrip (lstrip s).
Proof.
  induction s as [|c s IH]; [reflexivity|].
  rewrite rstrip_cons. cbn [lstrip].
  destruct (isspace c) eqn:S.
  - destruct (rstrip s) as [|x l] eqn:E.
    + rewrite <- IH. reflexivity.
    + cbn [lstrip]. rewrite S. exact IH.
  - rewrite rstrip_cons.
    destruct (rstrip s); cbn [lstrip]; rewrite S; reflexivity.
Qed.

Lemma strip_idem (s : str) : strip (strip s) = strip s.
Proof.
  unfold strip. now rewrite lstrip_rstrip, lstrip_idem, rstrip_idem.
Qed.

Lemma strip_rstrip (s : str) : strip (rstrip s) = strip s.
Proof. unfold strip. now rewrite lstrip_rstrip, rstrip_idem. Qed.

(** Trimming a string that starts and ends with characters that are not
    white space, with more after it, trims what comes after. *)
Lemma strip_after (p q : char) (mid rest : str) :
  isspace p = false -> isspace q = false ->
  strip (p :: mid ++ q :: rest) = p :: mid ++ q :: rstrip rest.
Proof.
  intros Hp Hq. unfold strip. cbn [lstrip]. rewrite Hp.
  change (p :: mid ++ q :: rest) with ((p :: mid) ++ q :: rest).
  change (p :: mid ++ q :: rstrip rest) with ((p :: mid) ++ q :: rstrip rest).
  generalize (p :: mid). intros a. clear Hp.
  induction a as [|c a IH]; cbn [List.app].
  - rewrite rstrip_cons. destruct (rstrip rest); [now rewrite Hq | reflexivity].
  - rewrite rstrip_cons, IH. destruct a; reflexivity.
Qed.

(** ** Lines *)

Lemma splitlines_from_line (a : str) :
  forall cur,
    Forall (fun c => is_linebreak c = false) a ->
    rev cur ++ a <> [] ->
    splitlines_from cur a = [rev cur ++ a].
Proof.
  induction a as [|c a IH]; intros cur H NE; cbn [splitlines_from].
  - rewrite app_nil_r in *. destruct cur; [exfalso; now apply NE | reflexivity].
  - inversion H as [|? ? Hc Ha]; subst. rewrite Hc.
    rewrite IH; [cbn [rev]; now rewrite <- app_assoc | exact Ha |].
    cbn [rev]. rewrite <- app_assoc. destruct (rev cur); discriminate.
Qed.

Lemma splitlines_from_newline (a b : str) :
  forall cur,
    Forall (fun c => is_linebreak c = false) a ->
    splitlines_from cur (a ++ 10%N :: b) = (rev cur ++ a) :: splitlines_from [] b.
Proof.
  induction a as [|c a IH]; intros cur H; cbn [List.app].
  - rewrite splitlines_from_break by reflexivity. rewrite app_nil_r.
    f_equal. now destruct b.
  - inversion H as [|? ? Hc Ha]; subst. cbn [splitlines_from]. rewrite Hc.
    rewrite IH by exact Ha. cbn [rev]. now rewrite <- app_assoc.
Qed.

Lemma splitlines_join (segments : list str) :
  Forall (fun s => s <> [] /\ Forall (fun c => is_linebreak c = false) s) segments ->
  splitlines (join [10%N] segments) = segments.
Proof.
  unfold splitlines.
  induction 1 as [|s segments [NE Hs] Hrest IH]; [reflexivity|].
  destruct segments as [|s' segments].
  - cbn [join]. now rewrite splitlines_from_line.
  - change (join [10%N] (s :: s' :: segments))
      with (s ++ 10%N :: join [10%N] (s' :: segments)).
    rewrite splitlines_from_newline by exact Hs. now rewrite IH.
Qed.

(** ** The prompt's transcript, read back *)

Lemma format_02d_two_digits (n : Z) :
  0 <= n < 100 ->
  format_02d n = [(48 + Z.to_N (n / 10))%N; (48 + Z.to_N (n mod 10))%N].
Proof.
  intros H. assert (I : In n (range 100)) by (apply In_range; lia).
  vm_compute in I.
  repeat (destruct I as [<-|I]; [reflexivity|]). destruct I.
Qed.

Lemma to_decimal_ascii (rt : Runtime) (d : N) :
  (d < 10)%N -> to_decimal rt (48 + d) = Some d.
Proof.
  intros H. unfold to_decimal.
  destruct (N.ltb_spec (48 + d) 128); [|lia].
  destruct (N.leb_spec 48 (48 + d)); [|lia].
  destruct (N.leb_spec (48 + d) 57); [|lia].
  cbn [andb]. f_equal. lia.
Qed.

Lemma two_digit_format_02d (rt : Runtime) (n : Z) :
  0 <= n < 100 -> Spec.two_digit rt (format_02d n) n.
Proof.
  intros H. rewrite (format_02d_two_digits H).
  assert (0 <= n / 10 < 10) by (split; [apply Z.div_pos | apply Z.div_lt_upper_bound]; lia).
  assert (0 <= n mod 10 < 10) by (apply Z.mod_pos_bound; lia).
  exists (48 + Z.to_N (n / 10))%N, (48 + Z.to_N (n mod 10))%N, (Z.to_N (n / 10)), (Z.to_N (n mod 10)).
  split; [reflexivity|]. split; [apply to_decimal_ascii; lia|].
  split; [apply to_decimal_ascii; lia|].
  pose proof (Z.div_mod n 10). lia.
Qed.

Lemma hms_format_seconds (rt : Runtime) (t : Z) :
  0 <= t < 360000 -> Spec.hms rt (_format_seconds t) t.
Proof.
  intros H. unfold _format_seconds. cbv zeta.
  assert (Hm : 0 <= t mod 3600 < 3600) by (apply Z.mod_pos_bound; lia).
  assert (0 <= t / 3600 < 100)
    by (split; [apply Z.div_pos | apply Z.div_lt_upper_bound]; lia).
  assert (0 <= t mod 3600 / 60 < 60)
    by (split; [apply Z.div_pos | apply Z.div_lt_upper_bound]; lia).
  assert (0 <= t mod 60 < 60) by (apply Z.mod_pos_bound; lia).
  exists (format_02d (t / 3600)), (format_02d (t mod 3600 / 60)), (format_02d (t mod 60)).
  exists (t / 3600), (t mod 3600 / 60), (t mod 60).
  split; [reflexivity|].
  split; [apply two_digit_format_02d; lia|].
  split; [apply two_digit_format_02d; lia|].
  split; [apply two_digit_format_02d; lia|].
  pose proof (Z.div_mod t 3600). pose proof (Z.div_mod (t mod 3600) 60).
  assert (E : t mod 60 = (t mod 3600) mod 60).
  { symmetry. apply Z.mod_mod_divide. exists 60. reflexivity. }
  lia.
Qed.

Lemma format_seconds_chars (t : Z) (c : char) :
  In c (_format_seconds t) -> (c = 58 \/ c = 45 \/ 48 <= c <= 57)%N.
Proof.
  assert (F : forall z, In c (format_02d z) -> (c = 45 \/ 48 <= c <= 57)%N).
  { intros z. unfold format_02d, digits_of_N.
    pose proof (lit_string_of_uint_digits (N.to_uint (Z.abs_N z))) as D.
    rewrite Forall_forall in D.
    destruct (z <? 0); [|destruct (_ <? 2)%nat]; intros I;
      try (apply in_app_or in I; destruct I as [[I|[]]|I]; [subst; cbn; lia|]);
      specialize (D _ I); lia. }
  unfold _format_seconds. cbv zeta. rewrite !in_app_iff. cbn [In lit map list_ascii_of_string].
  intros [I|[[I|[]]|[I|[[I|[]]|I]]]]; try (apply F in I; lia); subst; cbn; lia.
Qed.

Section RoundTrip.
Variable rt : Runtime.

(** The line the prompt holds for a segment. *)
Lemma parse_lines_rendered (l : TranscriptLine.t) (rest : list str) :
  Behaviour.renderable l ->
  Parser.parse_lines rt
    ((lit "[" ++ _format_seconds (TranscriptLine.start_sec l) ++ lit " --> "
      ++ _format_seconds (end_value l) ++ lit "] " ++ TranscriptLine.text l) :: rest)
  = (out <- Parser.parse_lines rt rest ;; Ok (Behaviour.as_parsed l :: out))%result.
Proof.
  intros (Bs & Be & Bt).
  set (s := TranscriptLine.start_sec l) in *. set (e := end_value l) in *.
  set (text := TranscriptLine.text l) in *.
  set (raw := lit "[" ++ _ ++ _ ++ _ ++ _ ++ text).
  set (mid := _format_seconds s ++ lit " --> " ++ _format_seconds e).
  assert (Eraw : raw = 91%N :: mid ++ 93%N :: 32%N :: text).
  { unfold raw, mid. cbn [lit map list_ascii_of_string List.app]. rewrite <- !app_assoc.
    reflexivity. }
  assert (Eline : strip raw = 91%N :: mid ++ 93%N :: rstrip (32%N :: text)).
  { rewrite Eraw. apply strip_after; reflexivity. }
  assert (NL : ~ In 10%N (strip raw)).
  { intros I. apply In_strip in I. rewrite Eraw in I. unfold mid in I.
    cbn [In] in I. rewrite !in_app_iff in I. cbn [In] in I. rewrite Forall_forall in Bt.
    destruct I as [I|[[I|[I|I]]|[I|[I|I]]]]; try discriminate.
    - apply format_seconds_chars in I. lia.
    - cbn in I. repeat (destruct I as [I|I]; [discriminate|]). destruct I.
    - apply format_seconds_chars in I. lia.
    - now specialize (Bt _ I). }
  assert (T : Spec.timestamped rt (strip raw) s e (rstrip (32%N :: text))).
  { exists (_format_seconds s), [32%N], [32%N], (_format_seconds e).
    split; [|split; [apply hms_format_seconds, Bs|split; [|split; [|apply hms_format_seconds, Be]]]].
    - rewrite Eline. unfold mid. cbn [lit map list_ascii_of_string List.app].
      rewrite <- !app_assoc. reflexivity.
    - constructor; [reflexivity | constructor].
    - constructor; [reflexivity | constructor]. }
  edestruct TRANSCRIPT_PATTERN_match_complete as (g1 & g2 & g3 & g4 & g5 & g6 & Mt & S1 & S2);
    [exact NL | exact T |].
  cbn [Parser.parse_lines]. cbv zeta.
  rewrite Eline in *. cbn [startswith lit map list_ascii_of_string orb andb N.eqb Pos.eqb].
  change (startswith (91%N :: mid ++ 93%N :: rstrip (32%N :: text)) Parser.generated_at)
    with false.
  cbn [orb]. rewrite Mt, S1, S2. cbn [rbind].
  unfold Behaviour.as_parsed. fold s. fold e. fold text.
  rewrite strip_lstrip, strip_rstrip.
  replace (strip (32%N :: text)) with (strip text) by reflexivity.
  reflexivity.
Qed.

Lemma parse_lines_rendered_all (lines : list TranscriptLine.t) :
  Forall Behaviour.renderable lines ->
  Parser.parse_lines rt
    (map (fun line =>
            lit "[" ++ _format_seconds (TranscriptLine.start_sec line) ++ lit " --> "
            ++ _format_seconds (end_value line) ++ lit "] " ++ TranscriptLine.text line)
         lines)
  = Ok (map Behaviour.as_parsed lines).
Proof.
  induction 1 as [|l lines Hl _ IH]; [reflexivity|].
  cbn [map]. rewrite (parse_lines_rendered _ Hl), IH. reflexivity.
Qed.

End RoundTrip.

(** X6. The transcript text that [_build_transcript_text] puts in the
    prompt is a transcript the Transcript Parser reads back: for segments
    with times from 0 to below 100 hours and texts without a line
    boundary, parsing the text gives the segments sorted by start, each
    with its start, its end (the start when it has none) and its text
    trimmed. *)
Theorem parse_transcript_txt_of_build_transcript_text
        (rt : Runtime) (transcript_lines : list TranscriptLine.t) :
  Forall Behaviour.renderable transcript_lines ->
  Parser.parse_transcript_txt rt (_build_transcript_text transcript_lines)
  = Ok (map Behaviour.as_parsed (sorted_by_start transcript_lines)).
Proof.
  intros R.
  assert (Rs : Forall Behaviour.renderable (sorted_by_start transcript_lines)).
  { rewrite Forall_forall in *. intros l I. apply R.
    unfold sorted_by_start in I. exact (proj1 (sorted_In _ _ l) I). }
  unfold Parser.parse_transcript_txt, _build_transcript_text. cbv zeta.
  rewrite splitlines_join; [apply parse_lines_rendered_all, Rs|].
  rewrite Forall_forall. intros seg I. apply in_map_iff in I.
  destruct I as (l & <- & Hl). split; [discriminate|].
  rewrite Forall_forall in Rs. destruct (Rs l Hl) as (_ & _ & Bt).
  rewrite Forall_forall in *. intros c I.
  unfold lit in I. cbn [map list_ascii_of_string] in I.
  repeat match goal with
         | H : _ \/ _ |- _ => destruct H as [H|H]
         | H : In _ (_ ++ _) |- _ => apply in_app_or in H
         | H : In _ (_ :: _) |- _ => cbn [In] in H
         | H : In _ [] |- _ => destruct H
         | H : False |- _ => destruct H
         end.
  all: try (subst c; reflexivity).
  all: try (apply Bt; assumption).
  all: apply format_seconds_chars in I; destruct I as [->|[->|I]]; try reflexivity.
  all: assert (E : In c [48; 49; 50; 51; 52; 53; 54; 55; 56; 57]%N) by (cbn; lia).
  all: cbn in E; repeat (destruct E as [<-|E]; [reflexivity|]); destruct E.
Qed.

(** X6 on the three segments from 0 to 30. *)
Lemma parse_transcript_txt_of_build_transcript_text_scenario :
  Parser.parse_transcript_txt ascii_runtime (_build_transcript_text scenario_lines)
  = Ok (map Behaviour.as_parsed (sorted_by_start scenario_lines)).
Proof.
  apply (@parse_transcript_txt_of_build_transcript_text ascii_runtime scenario_lines).
  repeat constructor; cbn; lia.
Defined.

(** ** What the Transcript Parser returns *)

Lemma hms_bounds (rt : Runtime) (t : str) (v : Z) : Spec.hms rt t v -> 0 <= v <= 362439.
Proof.
  intros (h & m & s & H & M & S & _ & Hh & Hm & Hs & ->).
  assert (B : forall g x, Spec.two_digit rt g x -> 0 <= x <= 99).
  { intros g x (a & b & da & db & _ & A & B & ->).
    apply to_decimal_digit in A, B. lia. }
  apply B in Hh, Hm, Hs. lia.
Qed.

Lemma emits_segments (rt : Runtime) (raws : list str) (out : list (Z * option Z * str)) :
  Spec.emits rt raws out ->
  Forall Behaviour.parsed_segment out /\ (length out <= length raws)%nat.
Proof.
  induction 1 as [|raw raws out N _ [IH1 IH2]|raw raws out s e r T _ [IH1 IH2]].
  - split; [constructor | cbn; lia].
  - split; [exact IH1 | cbn; lia].
  - split; [|cbn; lia]. constructor; [|exact IH1].
    destruct T as (t1 & w1 & w2 & t2 & _ & H1 & _ & _ & H2).
    apply hms_bounds in H1, H2. cbn.
    split; [lia|]. split; [exists e; split; [reflexivity | lia] | apply strip_idem].
Qed.

(** X7. [parse_transcript_txt] returns for every text, and never
    raises.  Every tuple it returns has a start and an end between 0 and
    99:99:99, that is 362439 seconds, an end that is not [None], and a
    text without white space at either side; and there are no more
    tuples than lines. *)
Theorem parse_transcript_txt_segments (rt : Runtime) (content : str) :
  exists out,
    Parser.parse_transcript_txt rt content = Ok out
    /\ Forall Behaviour.parsed_segment out
    /\ (length out <= length (splitlines content))%nat.
Proof.
  destruct (parse_lines_emits rt (splitlines_no_newline content)) as (out & P & E).
  exists out. split; [exact P|]. apply emits_segments with (1 := E).
Qed.

(** ** Transcripts put together *)

Section Concatenation.
Variable rt : Runtime.

Lemma parse_lines_app (l1 l2 : list str) :
  Parser.parse_lines rt (l1 ++ l2)
  = (x <- Parser.parse_lines rt l1 ;; y <- Parser.parse_lines rt l2 ;; Ok (x ++ y))%result.
Proof.
  induction l1 as [|raw l1 IH]; cbn [List.app Parser.parse_lines].
  - cbn [rbind]. now destruct (Parser.parse_lines rt l2).
  - cbv zeta. destruct (strip raw) as [|c line]; [exact IH|].
    destruct (startswith (c :: line) (lit "#") || startswith (c :: line) Parser.generated_at);
      [exact IH|].
    destruct (Parser.TRANSCRIPT_PATTERN_match rt (c :: line))
      as [[[[[[[g1 g2] g3] g4] g5] g6] g7]|]; [|exact IH].
    destruct (Parser.hms_to_seconds rt g1 g2 g3); [|reflexivity].
    destruct (Parser.hms_to_seconds rt g4 g5 g6); [|reflexivity].
    cbn [rbind]. rewrite IH.
    destruct (Parser.parse_lines rt l1); [|reflexivity]. cbn [rbind].
    destruct (Parser.parse_lines rt l2); reflexivity.
Qed.

Lemma parse_lines_cons_congr (raw : str) (l1 l2 : list str) :
  Parser.parse_lines rt l1 = Parser.parse_lines rt l2 ->
  Parser.parse_lines rt (raw :: l1) = Parser.parse_lines rt (raw :: l2).
Proof.
  intros E. change (raw :: l1) with ([raw] ++ l1). change (raw :: l2) with ([raw] ++ l2).
  now rewrite !parse_lines_app, E.
Qed.

Lemma parse_lines_splitlines_newline (n : nat) :
  forall (a cur b : str),
    (length a <= n)%nat ->
    Parser.parse_lines rt (splitlines_from cur (a ++ 10%N :: b))
    = Parser.parse_lines rt (splitlines_from cur a ++ splitlines b).
Proof.
  induction n as [|n IH]; intros a cur b Hn.
  - destruct a; [|cbn in Hn; lia]. cbn [List.app].
    rewrite splitlines_from_break by reflexivity.
    replace (match b with [] => b | c' :: r' => if ((10 =? 13) && (c' =? 10))%N then r' else b end)
      with b by now destruct b.
    cbn [splitlines_from]. destruct cur; [reflexivity | reflexivity].
  - destruct a as [|c a]; [apply (IH [] cur b); cbn; lia|].
    cbn in Hn. cbn [List.app].
    destruct (is_linebreak c) eqn:B.
    + rewrite !splitlines_from_break by exact B. cbn [List.app].
      apply parse_lines_cons_congr.
      destruct a as [|c' a]; cbn [List.app].
      * destruct (N.eqb_spec c 13) as [->|NE]; cbn [andb].
        -- reflexivity.
        -- rewrite splitlines_from_break by reflexivity.
           replace (match b with [] => b | c' :: r' => if ((10 =? 13) && (c' =? 10))%N then r' else b end)
             with b by now destruct b.
           reflexivity.
      * destruct ((c =? 13) && (c' =? 10))%N.
        -- apply (IH a [] b). cbn in Hn. lia.
        -- apply (IH (c' :: a) [] b). lia.
    + cbn [splitlines_from]. rewrite B. apply IH. lia.
Qed.

End Concatenation.

(** X8. Parsing is line by line: the tuples of two texts put together
    with a newline between them are the tuples of the first followed by
    the tuples of the second. *)
Theorem parse_transcript_txt_concat (rt : Runtime) (first second : str) :
  exists out1 out2,
    Parser.parse_transcript_txt rt first = Ok out1
    /\ Parser.parse_transcript_txt rt second = Ok out2
    /\ Parser.parse_transcript_txt rt (first ++ 10%N :: second) = Ok (out1 ++ out2).
Proof.
  destruct (parse_lines_emits rt (splitlines_no_newline first)) as (out1 & P1 & _).
  destruct (parse_lines_emits rt (splitlines_no_newline second)) as (out2 & P2 & _).
  exists out1, out2. split; [exact P1|]. split; [exact P2|].
  unfold Parser.parse_transcript_txt, splitlines.
  rewrite (@parse_lines_splitlines_newline rt (length first) first [] second (le_n _)).
  rewrite parse_lines_app. fold (splitlines first). fold (splitlines second).
  now rewrite P1, P2.
Qed.

(** ** Without a model *)

(** X9. Without a model the Orchestrator falls back.  When no provider
    key is configured, or the call to the provider fails on every prompt,
    [generate_chapters_from_transcript] on a non-empty transcript returns
    exactly what [_fallback_stub] returns and does not raise; it logs
    nothing in the first case and one call-failure record in the
    second. *)
Theorem generate_chapters_without_model
        (rt : Runtime) (env : Env) (l0 : TranscriptLine.t) (ls : list TranscriptLine.t)
        (max_chapters : option Z) (lg : log) :
  Behaviour.unavailable env ->
  exists w,
    generate_chapters_from_transcript rt env (l0 :: ls) max_chapters lg
    = (Ok (_fallback_stub (l0 :: ls) max_chapters), lg ++ w)
    /\ Behaviour.call_failure_log env w.
Proof.
  unfold Behaviour.unavailable, Behaviour.call_failure_log.
  intros U. unfold generate_chapters_from_transcript. cbv zeta.
  set (prompt := PROMPT_TEMPLATE_format _ _ _).
  unfold _call_volcengine_chat.
  destruct (volcengine_api_key env) as [[|k key]|].
  - exists []. rewrite app_nil_r. split; reflexivity.
  - destruct (U prompt) as [e E]. rewrite E.
    destruct e; eexists; (split; [reflexivity|]); auto.
  - exists []. rewrite app_nil_r. split; reflexivity.
Qed.

(** X9 on the three segments from 0 to 30 with no provider key. *)
Lemma generate_chapters_without_key :
  exists w,
    generate_chapters_from_transcript ascii_runtime (env_answering None PNone PNone)
                                      scenario_lines (Some 10) []
    = (Ok (_fallback_stub scenario_lines (Some 10)), [] ++ w)
    /\ Behaviour.call_failure_log (env_answering None PNone PNone) w.
Proof.
  apply (@generate_chapters_without_model
           ascii_runtime (env_answering None PNone PNone)
           (TranscriptLine.mk 0 (Some 10) (lit "a"))
           [TranscriptLine.mk 10 (Some 20) (lit "b"); TranscriptLine.mk 20 (Some 30) (lit "c")]
           (Some 10) []).
  exact I.
Defined.

(** ** What the Response Parser returns *)

Lemma bind_lift_Ok {A B} (x : result A) (k : A -> M B) (lg lg' : log) (b : B) :
  bind (lift x) k lg = (Ok b, lg') -> exists a, x = Ok a /\ k a lg = (Ok b, lg').
Proof.
  unfold bind, lift. destruct x as [a|e]; [eauto | discriminate].
Qed.

Lemma converted_model_candidates (rt : Runtime) (rows : list pyval) :
  forall idx, Forall Behaviour.model_candidate (Spec.converted rt idx rows).
Proof.
  induction rows as [|ch rows IH]; intros idx; cbn [Spec.converted]; [constructor|].
  destruct (parse_chapter_row rt idx ch) as [c|e] eqn:R; [|apply IH].
  constructor; [|apply IH].
  unfold parse_chapter_row in R.
  repeat match type of R with
         | rbind ?x _ = Ok _ => destruct x; cbn [rbind] in R; [|discriminate]
         end.
  injection R as <-. repeat split. eexists; reflexivity.
Qed.


(** Whatever the response, what the parser returns is empty or the
    conversion of a list of rows. *)
Lemma _parse_llm_response_Ok (rt : Runtime) (env : Env) (data : pyval) (lg lg' : log)
      (out : list ChapterData.t) :
  _parse_llm_response rt env data lg = (Ok out, lg') ->
  out = [] \/ exists rows, out = Spec.converted rt 0 rows.
Proof.
  unfold _parse_llm_response.
  destruct (negb (truthy data)); [intros [= <- _]; now left|].
  intros H. apply bind_lift_Ok in H. destruct H as (has_choices & _ & H).
  destruct (negb has_choices); [injection H as <- _; now left|].
  apply bind_lift_Ok in H. destruct H as (choices & _ & H).
  destruct (negb (truthy choices)); [injection H as <- _; now left|].
  apply bind_lift_Ok in H. destruct H as (choice & _ & H).
  apply bind_lift_Ok in H. destruct H as (message & _ & H).
  apply bind_lift_Ok in H. destruct H as (content & _ & H).
  destruct (match content with PStr s => json_loads env s | _ => Raise TypeError end)
    as [parsed|e].
  - apply bind_lift_Ok in H. destruct H as (chapters_raw & _ & H).
    apply bind_lift_Ok in H. destruct H as (rows & _ & H).
    rewrite (parse_chapter_rows_writes rt rows 0 [] lg) in H.
    injection H as <- _. right. exists rows. reflexivity.
  - destruct e; try discriminate. unfold bind, logging_error, ret in H.
    injection H as <- _. now left.
Qed.

(** X10. Whatever the response, every candidate the Response Parser
    returns has source ["auto_llm"], no tags, no confidence, and an end
    that is not [None]. *)
Theorem _parse_llm_response_candidates
        (rt : Runtime) (env : Env) (data : pyval) (lg lg' : log) (out : list ChapterData.t) :
  _parse_llm_response rt env data lg = (Ok out, lg') ->
  Forall Behaviour.model_candidate out.
Proof.
  intros H. apply _parse_llm_response_Ok in H.
  destruct H as [->|[rows ->]]; [constructor | apply converted_model_candidates].
Qed.

(** X10 on a completion whose content decodes to one row from 00:05 to
    00:15. *)
Lemma _parse_llm_response_candidates_scenario_C :
  Forall Behaviour.model_candidate [candidate 5 (Some 15) (PInt 1)].
Proof.
  apply (@_parse_llm_response_candidates
           ascii_runtime (env_answering None PNone scenario_C_decoded)
           (completion (PStr (lit "{}"))) [] []).
  reflexivity.
Defined.



(** ** The fallback's size *)

(** X12. The fallback never returns more than ten chapters, whatever
    [max_chapters] is; its chapters are numbered 1, 2, ... in the order
    returned, have source ["auto_stub"] and do not start before 0.  On a
    non-empty transcript their number is [min(max_chapters or 10, 10)],
    none when that is negative; on an empty one there is none. *)
Theorem fallback_stub_at_most_ten
        (transcript_lines : list TranscriptLine.t) (max_chapters : option Z) :
  let out := _fallback_stub transcript_lines max_chapters in
  (length out <= 10)%nat
  /\ (forall i c, nth_error out i = Some c ->
        ChapterData.order c = PInt (Z.of_nat i + 1)
        /\ ChapterData.source c = lit "auto_stub"
        /\ 0 <= ChapterData.start_sec c)
  /\ (forall l0 ls, transcript_lines = l0 :: ls ->
        length out = Z.to_nat (Z.min (int_or max_chapters 10) 10))
  /\ (transcript_lines = [] -> out = []).
Proof.
  cbv zeta. destruct transcript_lines as [|l0 ls].
  { cbn. split; [lia|]. split; [intros [|i] c0; discriminate|].
    split; [discriminate | reflexivity]. }
  unfold _fallback_stub.
  set (duration := duration_of _).
  set (count := Z.min (int_or max_chapters 10) 10).
  set (step := Z.max (duration / count) 1).
  set (mk := fun idx : Z => ChapterData.mk _ _ _ _ _ _ _ _).
  assert (L : length (map mk (range count)) = Z.to_nat count)
    by now rewrite length_map, range_length.
  split; [rewrite L; unfold count; lia|].
  split; [|split; [intros; exact L | discriminate]].
  intros i c0 H.
  assert (Hi : (i < Z.to_nat count)%nat) by (rewrite <- L; apply nth_error_Some; congruence).
  rewrite <- (Nat2Z.id i), nth_error_map, nth_error_range in H by lia.
  injection H as <-. unfold mk; cbn [ChapterData.order ChapterData.source ChapterData.start_sec].
  repeat split. unfold step. nia.
Qed.

(** ** backend/main.py *)



Lemma format_hms_length (t : Z) :
  0 <= t < 360000 -> length (Main.format_hms t) = 8%nat.
Proof.
  intros H. unfold Main.format_hms. cbv zeta.
  assert (Hm : 0 <= t mod 3600 < 3600) by (apply Z.mod_pos_bound; lia).
  assert (0 <= t / 3600 < 100)
    by (split; [apply Z.div_pos | apply Z.div_lt_upper_bound]; lia).
  assert (0 <= t mod 3600 / 60 < 100)
    by (split; [apply Z.div_pos | apply Z.div_lt_upper_bound]; lia).
  assert (0 <= t mod 60 < 100) by (pose proof (Z.mod_pos_bound t 60); lia).
  rewrite !format_02d_two_digits by assumption. reflexivity.
Qed.

(** X14. The export has one line for each chapter, in the order of the
    query: for chapters that start from 0 to below 100 hours and whose
    titles hold no line boundary, the lines of the text are as many as
    the chapters, and each is a timestamp of eight characters that
    [_hms_to_seconds] reads back as the start of its chapter, then a
    space and the title. *)
Theorem export_bilibili_lines (rt : Runtime) (project : Project.t) (chapters : list Chapter.t) :
  Forall Bilibili.one_line chapters ->
  exists text,
    Main.export_bilibili (Some project) chapters = Main.Respond text
    /\ Forall2 (Bilibili.line_of rt) chapters (splitlines text).
Proof.
  intros H. eexists. split; [reflexivity|].
  rewrite splitlines_join.
  - induction H as [|ch chapters [B _] _ IH]; cbn [map]; constructor; [|exact IH].
    pose proof (format_hms_length B) as L. unfold Bilibili.line_of.
    rewrite firstn_app, skipn_app, L, Nat.sub_diag.
    replace (firstn 8 (Main.format_hms (Chapter.start_sec ch)))
      with (Main.format_hms (Chapter.start_sec ch)) by (now rewrite <- L, firstn_all).
    replace (skipn 8 (Main.format_hms (Chapter.start_sec ch)))
      with (@nil char) by (now rewrite <- L, skipn_all).
    cbn [firstn skipn List.app]. rewrite app_nil_r. split; [|reflexivity].
    apply _hms_to_seconds_format_seconds. right.
    apply (Z.lt_le_trans _ (10 ^ 6)); [rewrite Z.abs_eq; lia | apply Z.pow_le_mono_r; lia].
  - rewrite Forall_forall in *. intros seg I. apply in_map_iff in I.
    destruct I as (ch & <- & I). destruct (H _ I) as [B T].
    split.
    + pose proof (format_hms_length B) as L.
      destruct (Main.format_hms (Chapter.start_sec ch)); discriminate.
    + rewrite !Forall_app. split; [|split; [repeat constructor | exact T]].
      rewrite Forall_forall. intros c Ic.
      apply (format_seconds_chars (Chapter.start_sec ch)) in Ic.
      unfold is_linebreak.
      destruct Ic as [->|[->|Ic]]; [reflexivity | reflexivity |].
      assert (In c (map Z.to_N (range 58))) as J.
      { apply in_map_iff. exists (Z.of_N c). split; [lia | apply In_range; lia]. }
      vm_compute in J.
      repeat (destruct J as [<-|J]; [try reflexivity; lia|]). destruct J.
Qed.

(** X14 on two chapters, the second with an empty title. *)
Lemma export_bilibili_two_chapters :
  exists text,
    Main.export_bilibili (Some (Project.mk (lit "p") None (Some 30) 10))
                         [Chapter.mk (lit "Intro") 0; Chapter.mk (lit "") 3725]
    = Main.Respond text
    /\ Forall2 (Bilibili.line_of ascii_runtime)
               [Chapter.mk (lit "Intro") 0; Chapter.mk (lit "") 3725] (splitlines text).
Proof.
  apply (@export_bilibili_lines ascii_runtime (Project.mk (lit "p") None (Some 30) 10)
                                [Chapter.mk (lit "Intro") 0; Chapter.mk (lit "") 3725]).
  repeat constructor; cbn; lia.
Defined.
